(** * ARIVIAv2 landing page: the script [main.js] as an event-driven state machine

    The page script configures a 3D scene (three.js) and scroll-linked
    animations (GSAP), and installs callbacks that the browser invokes later:
    the asset loader's three callbacks, the resize listener, the two
    per-frame callbacks ([animate] and [rotateModel]) and one pointer
    listener per card.  The embedding keeps the script's variables as fields
    of one [State] record, every callback as a function on that state, and
    the browser as a list of [Event]s delivered in order.

    JavaScript numbers are IEEE doubles.  They are read here as real numbers
    ([R]): rounding is not modelled, so an equality proved below holds in the
    script up to floating-point rounding.  Integer literals that are only
    stored (colours, repeat counts, clock readings) are kept in [Z]. *)

From Stdlib Require Import Reals Lra List String ZArith Lia Bool Arith.
Import ListNotations.
Local Open Scope R_scope.

(** ** Errors

    A callback either returns the next state or throws. *)

Inductive result (A : Type) : Type :=
| Ok (a : A)
| Throw (e : string).
Arguments Ok {A} a.
Arguments Throw {A} e.

Definition bind {A B : Type} (m : result A) (k : A -> result B) : result B :=
  match m with
  | Ok a => k a
  | Throw e => Throw e
  end.

Notation "x <- m ;; k" := (bind m (fun x => k))
  (at level 61, m at next level, right associativity).

(** ** The parts of three.js the script calls

    three.js is a library the page loads; its code is not part of the
    repository.  The definitions below give, for the classes and methods
    [main.js] uses, what the library documents them to do. *)

Module Vector3.

Record t : Type := make { x : R; y : R; z : R }.

Definition zero : t := make 0 0 0.

(** [addVectors(a, b)], [a.sub(v)], [a.multiplyScalar(s)], [a.min(v)],
    [a.max(v)], and the assignments [a.y = v] and [a.z = v]. *)
Definition addVectors (a b : t) : t := make (x a + x b) (y a + y b) (z a + z b).
Definition sub (a v : t) : t := make (x a - x v) (y a - y v) (z a - z v).
Definition multiplyScalar (a : t) (s : R) : t := make (x a * s) (y a * s) (z a * s).
Definition min (a v : t) : t := make (Rmin (x a) (x v)) (Rmin (y a) (y v)) (Rmin (z a) (z v)).
Definition max (a v : t) : t := make (Rmax (x a) (x v)) (Rmax (y a) (y v)) (Rmax (z a) (z v)).
Definition setY (a : t) (v : R) : t := make (x a) v (z a).
Definition setZ (a : t) (v : R) : t := make (x a) (y a) v.

End Vector3.

Module Euler.

Record t : Type := make { x : R; y : R; z : R }.
Definition zero : t := make 0 0 0.

End Euler.

Module Box3.

(** three.js starts a box at (+inf, -inf) and calls it empty; [None] is that
    empty box, [Some (lo, hi)] a box with corners [lo] and [hi]. *)
Definition t : Type := option (Vector3.t * Vector3.t).

Definition empty : t := None.

Definition isEmpty (b : t) : bool :=
  match b with None => true | Some _ => false end.

Definition expandByPoint (b : t) (p : Vector3.t) : t :=
  match b with
  | None => Some (p, p)
  | Some (lo, hi) => Some (Vector3.min lo p, Vector3.max hi p)
  end.

Definition setFromPoints (pts : list Vector3.t) : t :=
  fold_left expandByPoint pts empty.

(** [box.getCenter(target)]: the origin for an empty box, the midpoint of
    the corners otherwise. *)
Definition getCenter (b : t) : Vector3.t :=
  match b with
  | None => Vector3.zero
  | Some (lo, hi) => Vector3.multiplyScalar (Vector3.addVectors lo hi) 0.5
  end.

End Box3.

(** A geometry is its vertex list.  [IcosahedronGeometry radius] is
    [new THREE.IcosahedronGeometry(radius, 0)]: the twelve vertices of the
    base polyhedron pushed out to [radius]. *)
Record Geometry : Type := mkGeometry {
  geometryType : string;
  vertices : list Vector3.t
}.

Definition golden : R := (1 + sqrt 5) / 2.

Definition icosahedronBase : list Vector3.t :=
  [ Vector3.make (-1) golden 0; Vector3.make 1 golden 0;
    Vector3.make (-1) (- golden) 0; Vector3.make 1 (- golden) 0;
    Vector3.make 0 (-1) golden; Vector3.make 0 1 golden;
    Vector3.make 0 (-1) (- golden); Vector3.make 0 1 (- golden);
    Vector3.make golden 0 (-1); Vector3.make golden 0 1;
    Vector3.make (- golden) 0 (-1); Vector3.make (- golden) 0 1 ].

Definition length3 (v : Vector3.t) : R :=
  sqrt (Vector3.x v * Vector3.x v + Vector3.y v * Vector3.y v + Vector3.z v * Vector3.z v).

Definition IcosahedronGeometry (radius : R) : Geometry :=
  {| geometryType := "IcosahedronGeometry";
     vertices :=
       map (fun v => Vector3.multiplyScalar v (radius / length3 v)) icosahedronBase |}.

Record MeshStandardMaterial : Type := mkMaterial {
  color : Z;
  roughness : R;
  metalness : R;
  wireframe : bool
}.

(** An object of the scene graph: where it is, how it is turned, and what it
    draws.  [geometry] holds the vertices of the object and of its
    descendants as they lie around [position] (the object's own turn and
    scale applied), so a vertex [v] is at [position + v] in the world;
    [material] is [None] for the root of a loaded asset, whose meshes carry
    their own.  Tweens are recorded, not played: what GSAP later writes into
    [rotation] is outside the model. *)
Record Object3D : Type := mkObject3D {
  position : Vector3.t;
  rotation : Euler.t;
  geometry : Geometry;
  material : option MeshStandardMaterial
}.

Definition Mesh (g : Geometry) (m : MeshStandardMaterial) : Object3D :=
  {| position := Vector3.zero; rotation := Euler.zero;
     geometry := g; material := Some m |}.

Definition withPosition (o : Object3D) (p : Vector3.t) : Object3D :=
  {| position := p; rotation := rotation o;
     geometry := geometry o; material := material o |}.

(** [new THREE.Box3().setFromObject(o)] for an object without a parent: the
    box of its vertices in world space. *)
Definition setFromObject (o : Object3D) : Box3.t :=
  Box3.setFromPoints (map (Vector3.addVectors (position o)) (vertices (geometry o))).

Module PerspectiveCamera.

(** The projection matrix is kept as the frustum it is built from
    ([makePerspective(left, right, top, bottom, near, far)]). *)
Record Frustum : Type := mkFrustum {
  left : R; right : R; top : R; bottom : R; fnear : R; ffar : R
}.

Record t : Type := make {
  fov : R;
  aspect : R;
  near : R;
  far : R;
  position : Vector3.t;
  projectionMatrix : Frustum
}.

Definition frustumOf (fov aspect near far : R) : Frustum :=
  let top := near * tan (PI / 180 * 0.5 * fov) in
  let height := 2 * top in
  let width := aspect * height in
  let left := - 0.5 * width in
  mkFrustum left (left + width) top (top - height) near far.

Definition updateProjectionMatrix (c : t) : t :=
  make (fov c) (aspect c) (near c) (far c) (position c)
       (frustumOf (fov c) (aspect c) (near c) (far c)).

(** [new THREE.PerspectiveCamera(fov, aspect, near, far)]. *)
Definition new (fov aspect near far : R) : t :=
  updateProjectionMatrix
    (make fov aspect near far Vector3.zero (mkFrustum 0 0 0 0 0 0)).

Definition setAspect (c : t) (a : R) : t :=
  make (fov c) a (near c) (far c) (position c) (projectionMatrix c).

Definition setPosition (c : t) (p : Vector3.t) : t :=
  make (fov c) (aspect c) (near c) (far c) p (projectionMatrix c).

End PerspectiveCamera.

Module WebGLRenderer.

(** What one [render(scene, camera)] call draws: the objects of the scene as
    they are at the call, through the camera's projection matrix. *)
Record Rendered : Type := mkRendered {
  drawn : list Object3D;
  through : PerspectiveCamera.Frustum
}.

Record t : Type := make {
  alpha : bool;
  antialias : bool;
  width : R;
  height : R;
  pixelRatio : R;
  frames : list Rendered
}.

Definition setSize (r : t) (w h : R) : t :=
  make (alpha r) (antialias r) w h (pixelRatio r) (frames r).

(** [setPixelRatio(v)] stores the ratio and re-applies the current size. *)
Definition setPixelRatio (r : t) (v : R) : t :=
  setSize (make (alpha r) (antialias r) (width r) (height r) v (frames r))
          (width r) (height r).

Definition getSize (r : t) : R * R := (width r, height r).

Definition render (r : t) (objs : list Object3D) (c : PerspectiveCamera.t) : t :=
  make (alpha r) (antialias r) (width r) (height r) (pixelRatio r)
       (frames r ++ [mkRendered objs (PerspectiveCamera.projectionMatrix c)]).

End WebGLRenderer.

Inductive Light : Type :=
| AmbientLight (color : Z) (intensity : R)
| SpotLight (color : Z) (intensity : R) (position : Vector3.t) (angle penumbra : R)
| PointLight (color : Z) (intensity : R) (position : Vector3.t)
| DirectionalLight (color : Z) (intensity : R) (position : Vector3.t).

(** Objects that the script mutates after creating them live in a store
    ([objects] of the page state) and are named by their index there, so that
    the variable [model], the scene and a tween's target can share one
    object. *)
Definition ObjId : Type := nat.

Inductive Child : Type :=
| CameraNode
| LightNode (l : Light)
| ObjectNode (id : ObjId).

(** ** The parts of GSAP the script calls

    GSAP and its ScrollTrigger plugin are likewise a library outside the
    repository.  A tween is kept as the record of what the script asked for;
    a timeline resolves position labels as GSAP documents it. *)

Module Gsap.

(** What a tween or a trigger points at: a selector string, a DOM node, or
    the [rotation] of a stored object. *)
Inductive Target : Type :=
| Selector (s : string)
| Node (e : nat)
| RotationOf (id : ObjId).

Inductive Value : Type :=
| Num (v : R)
| Text (s : string).

Record ScrollTriggerVars : Type := mkScrollTrigger {
  trigger : Target;
  start : string;
  end_ : option string;
  scrub : option R;
  pin : bool
}.

Inductive Direction : Type := To | From.

Record Tween : Type := mkTween {
  direction : Direction;
  target : Target;
  props : list (string * Value);
  duration : option R;
  repeat : option Z;
  ease : option string;
  delay : option R;
  scrollTrigger : option ScrollTriggerVars
}.

(** GSAP's default tween duration. *)
Definition defaultDuration : R := 0.5.

Definition durationOf (tw : Tween) : R :=
  match duration tw with Some d => d | None => defaultDuration end.

(** A timeline: its trigger, its labels with their times, and its tweens
    with their start times, in insertion order. *)
Record Timeline : Type := mkTimeline {
  tlScrollTrigger : option ScrollTriggerVars;
  labels : list (string * R);
  children : list (R * Tween)
}.

Definition timeline (st : option ScrollTriggerVars) : Timeline :=
  mkTimeline st [] [].

Definition totalDuration (tl : Timeline) : R :=
  fold_left (fun acc c => Rmax acc (fst c + durationOf (snd c))) (children tl) 0.

Fixpoint labelTime (l : string) (ls : list (string * R)) : option R :=
  match ls with
  | [] => None
  | (k, v) :: rest => if String.eqb k l then Some v else labelTime l rest
  end.

(** [tl.to(target, vars, label)]: the tween starts at the label's time; a
    label the timeline does not have yet is added at the timeline's end. *)
Definition to (tl : Timeline) (tw : Tween) (label : string) : Timeline :=
  match labelTime label (labels tl) with
  | Some t => mkTimeline (tlScrollTrigger tl) (labels tl) (children tl ++ [(t, tw)])
  | None =>
      let t := totalDuration tl in
      mkTimeline (tlScrollTrigger tl) (labels tl ++ [(label, t)])
                 (children tl ++ [(t, tw)])
  end.

(** Media queries of [ScrollTrigger.matchMedia], on the viewport width in
    CSS pixels. *)
Inductive MediaQuery : Type :=
| MinWidth (px : R)
| MaxWidth (px : R).

Definition matches (q : MediaQuery) (viewportWidth : R) : bool :=
  match q with
  | MinWidth px => if Rle_dec px viewportWidth then true else false
  | MaxWidth px => if Rle_dec viewportWidth px then true else false
  end.

End Gsap.

(** ** The page *)

Module Page.

(** What the script reads from [window], and the width that media queries
    are evaluated against ([viewportWidth], in CSS pixels).  The latter need
    not be a whole number (browser zoom, fractional display scaling);
    [innerWidth] is what the browser reports to scripts. *)
Record Window : Type := mkWindow {
  innerWidth : R;
  innerHeight : R;
  devicePixelRatio : R;
  viewportWidth : R
}.

(** The nodes the script looks up: [.horizontal-section] and
    [.horizontal-wrapper] ([None] when [querySelector] finds nothing) and the
    nodes matching [.h-card]. *)
Record Document : Type := mkDocument {
  horizontalSection : option nat;
  wrapper : option nat;
  hCards : list nat
}.

Record Sizes : Type := mkSizes { width : R; height : R }.

Record DOMRect : Type := mkDOMRect { left : R; top : R }.

(** The value of the template literal [`${v}px`]: a number followed by the
    unit.  How the runtime prints the number is not modelled. *)
Record CssLength : Type := mkCssLength { magnitude : R; unit : string }.

Definition px (v : R) : CssLength := mkCssLength v "px".

Inductive Callback : Type := Animate | RotateModel.

Inductive LogEntry : Type :=
| Log (percentLoaded : R)
| Error (message : string) (error : string).

(** The state of the page.  [sizes], [camera], [renderer], [scene], [model]
    and [tl] are the script's variables of those names; [window] and
    [document] are what the browser shows the script; [objects] is the store
    of the 3D objects the script holds references to; [animations] are the
    tweens started with [gsap.to], [media] the tweens that
    [ScrollTrigger.matchMedia] keeps per query, [frameCallbacks] the
    callbacks passed to [requestAnimationFrame] and not yet run; [style]
    holds the custom properties set on DOM nodes, [console] what was
    logged. *)
Record State : Type := mkState {
  window : Window;
  document : Document;
  sizes : Sizes;
  camera : PerspectiveCamera.t;
  renderer : WebGLRenderer.t;
  scene : list Child;
  objects : list Object3D;
  model : option ObjId;
  animations : list Gsap.Tween;
  tl : Gsap.Timeline;
  media : list (Gsap.MediaQuery * list Gsap.Tween);
  frameCallbacks : list Callback;
  style : nat -> string -> option CssLength;
  console : list LogEntry
}.

Definition set_window (s : State) (v : Window) : State :=
  mkState v (document s) (sizes s) (camera s) (renderer s) (scene s) (objects s)
          (model s) (animations s) (tl s) (media s) (frameCallbacks s) (style s) (console s).
Definition set_sizes (s : State) (v : Sizes) : State :=
  mkState (window s) (document s) v (camera s) (renderer s) (scene s) (objects s)
          (model s) (animations s) (tl s) (media s) (frameCallbacks s) (style s) (console s).
Definition set_camera (s : State) (v : PerspectiveCamera.t) : State :=
  mkState (window s) (document s) (sizes s) v (renderer s) (scene s) (objects s)
          (model s) (animations s) (tl s) (media s) (frameCallbacks s) (style s) (console s).
Definition set_renderer (s : State) (v : WebGLRenderer.t) : State :=
  mkState (window s) (document s) (sizes s) (camera s) v (scene s) (objects s)
          (model s) (animations s) (tl s) (media s) (frameCallbacks s) (style s) (console s).
Definition set_scene (s : State) (v : list Child) : State :=
  mkState (window s) (document s) (sizes s) (camera s) (renderer s) v (objects s)
          (model s) (animations s) (tl s) (media s) (frameCallbacks s) (style s) (console s).
Definition set_objects (s : State) (v : list Object3D) : State :=
  mkState (window s) (document s) (sizes s) (camera s) (renderer s) (scene s) v
          (model s) (animations s) (tl s) (media s) (frameCallbacks s) (style s) (console s).
Definition set_model (s : State) (v : option ObjId) : State :=
  mkState (window s) (document s) (sizes s) (camera s) (renderer s) (scene s) (objects s)
          v (animations s) (tl s) (media s) (frameCallbacks s) (style s) (console s).
Definition set_animations (s : State) (v : list Gsap.Tween) : State :=
  mkState (window s) (document s) (sizes s) (camera s) (renderer s) (scene s) (objects s)
          (model s) v (tl s) (media s) (frameCallbacks s) (style s) (console s).
Definition set_tl (s : State) (v : Gsap.Timeline) : State :=
  mkState (window s) (document s) (sizes s) (camera s) (renderer s) (scene s) (objects s)
          (model s) (animations s) v (media s) (frameCallbacks s) (style s) (console s).
Definition set_media (s : State) (v : list (Gsap.MediaQuery * list Gsap.Tween)) : State :=
  mkState (window s) (document s) (sizes s) (camera s) (renderer s) (scene s) (objects s)
          (model s) (animations s) (tl s) v (frameCallbacks s) (style s) (console s).
Definition set_frameCallbacks (s : State) (v : list Callback) : State :=
  mkState (window s) (document s) (sizes s) (camera s) (renderer s) (scene s) (objects s)
          (model s) (animations s) (tl s) (media s) v (style s) (console s).
Definition set_style (s : State) (v : nat -> string -> option CssLength) : State :=
  mkState (window s) (document s) (sizes s) (camera s) (renderer s) (scene s) (objects s)
          (model s) (animations s) (tl s) (media s) (frameCallbacks s) v (console s).
Definition set_console (s : State) (v : list LogEntry) : State :=
  mkState (window s) (document s) (sizes s) (camera s) (renderer s) (scene s) (objects s)
          (model s) (animations s) (tl s) (media s) (frameCallbacks s) (style s) v.

(** *** The object store *)

(** Reading through a reference: a property access on [null] throws. *)
Definition deref (s : State) (ref : option ObjId) : result Object3D :=
  match ref with
  | None => Throw "TypeError: null has no properties"
  | Some id =>
      match nth_error (objects s) id with
      | Some o => Ok o
      | None => Throw "no such object"
      end
  end.

Fixpoint replace (os : list Object3D) (id : ObjId) (o : Object3D) : list Object3D :=
  match os, id with
  | [], _ => []
  | _ :: rest, O => o :: rest
  | a :: rest, S n => a :: replace rest n o
  end.

(** Writing through a reference. *)
Definition modify (s : State) (ref : option ObjId) (f : Object3D -> Object3D)
  : result State :=
  o <- deref s ref ;;
  match ref with
  | Some id => Ok (set_objects s (replace (objects s) id (f o)))
  | None => Throw "TypeError: null has no properties"
  end.

(** [new] puts a fresh object in the store and returns its reference. *)
Definition alloc (s : State) (o : Object3D) : State * ObjId :=
  (set_objects s (objects s ++ [o]), List.length (objects s)).

Definition sceneAdd (s : State) (c : Child) : State :=
  set_scene s (scene s ++ [c]).

Definition requestAnimationFrame (s : State) (cb : Callback) : State :=
  set_frameCallbacks s (frameCallbacks s ++ [cb]).

Definition gsapAdd (s : State) (tw : Gsap.Tween) : State :=
  set_animations s (animations s ++ [tw]).

(** The objects a render call draws: those the scene holds, read from the
    store at the time of the call. *)
Fixpoint sceneObjects (os : list Object3D) (cs : list Child) : list Object3D :=
  match cs with
  | [] => []
  | ObjectNode id :: rest =>
      match nth_error os id with
      | Some o => o :: sceneObjects os rest
      | None => sceneObjects os rest
      end
  | _ :: rest => sceneObjects os rest
  end.

Definition render (s : State) : State :=
  set_renderer s
    (WebGLRenderer.render (renderer s) (sceneObjects (objects s) (scene s)) (camera s)).

(** *** The loader's callbacks ([loader.load('Arivia.glb', ...)]) *)

Definition idleRotation (id : ObjId) : Gsap.Tween :=
  Gsap.mkTween Gsap.To (Gsap.RotationOf id) [("y"%string, Gsap.Num (PI * 2))]
               (Some 20) (Some (-1)%Z) (Some "none"%string) None None.

(** Success: [(gltf) => { model = gltf.scene; ... }], with [gltfScene] the
    object [gltf.scene]; a file that holds no scene is outside the model. *)
Definition onLoad (gltfScene : Object3D) (s : State) : result State :=
  let (s, id) := alloc s gltfScene in
  let s := set_model s (Some id) in
  m <- deref s (model s) ;;
  let box := setFromObject m in
  let center := Box3.getCenter box in
  s <- modify s (model s) (fun o => withPosition o (Vector3.sub (position o) center)) ;;
  let s := sceneAdd s (ObjectNode id) in
  Ok (gsapAdd s (idleRotation id)).

(** Progress: [(xhr) => console.log(...)]. *)
Definition onProgress (loaded total : R) (s : State) : result State :=
  Ok (set_console s (console s ++ [Log (loaded / total * 100)])).

Definition fallbackMaterial : MeshStandardMaterial :=
  {| color := 0x111111; roughness := 0.3; metalness := 0.8; wireframe := true |}.

Definition fallbackMesh : Object3D :=
  Mesh (IcosahedronGeometry 1.5) fallbackMaterial.

(** Failure: [(error) => { ...; model = mesh; }]. *)
Definition onError (error : string) (s : State) : result State :=
  let s := set_console s
             (console s ++ [Error "An error occurred loading the model:" error]) in
  let (s, id) := alloc s fallbackMesh in
  let s := sceneAdd s (ObjectNode id) in
  Ok (set_model s (Some id)).

(** *** The resize listener *)

Definition onResize (s : State) : result State :=
  let s := set_sizes s (mkSizes (innerWidth (window s)) (height (sizes s))) in
  let s := set_sizes s (mkSizes (width (sizes s)) (innerHeight (window s))) in
  let s := set_camera s
             (PerspectiveCamera.setAspect (camera s)
                (width (sizes s) / height (sizes s))) in
  let s := set_camera s (PerspectiveCamera.updateProjectionMatrix (camera s)) in
  let s := set_renderer s
             (WebGLRenderer.setSize (renderer s) (width (sizes s)) (height (sizes s))) in
  Ok (set_renderer s
        (WebGLRenderer.setPixelRatio (renderer s)
           (Rmin (devicePixelRatio (window s)) 2))).

(** *** The render loop *)

(** [Math.sin(Date.now() * 0.001) * 0.1], as a function of the clock. *)
Definition floatOffset (t : R) : R := sin (t * 0.001) * 0.1.

(** [animate], with [now] the value [Date.now()] returns during the call. *)
Definition animate (now : Z) (s : State) : result State :=
  let s := requestAnimationFrame s Animate in
  s <- match model s with
       | Some _ =>
           modify s (model s)
             (fun o => withPosition o (Vector3.setY (position o) (floatOffset (IZR now))))
       | None => Ok s
       end ;;
  Ok (render s).

(** *** The scroll animations *)

Definition heroTrigger (pinned : bool) : Gsap.ScrollTriggerVars :=
  Gsap.mkScrollTrigger (Gsap.Selector ".hero") "top top" (Some "+=150%"%string)
                       (Some 1) pinned.

Definition line1 : Gsap.Tween :=
  Gsap.mkTween Gsap.To (Gsap.Selector ".line-1")
    [("x"%string, Gsap.Text "-150%"); ("opacity"%string, Gsap.Num 0)]
    (Some 1) None None None None.

Definition line3 : Gsap.Tween :=
  Gsap.mkTween Gsap.To (Gsap.Selector ".line-3")
    [("x"%string, Gsap.Text "150%"); ("opacity"%string, Gsap.Num 0)]
    (Some 1) None None None None.

Definition line2 : Gsap.Tween :=
  Gsap.mkTween Gsap.To (Gsap.Selector ".line-2")
    [("scale"%string, Gsap.Num 15); ("opacity"%string, Gsap.Num 0)]
    (Some 1.5) None (Some "power2.inOut"%string) None None.

Definition heroInfoOut : Gsap.Tween :=
  Gsap.mkTween Gsap.To (Gsap.Selector ".hero-info")
    [("y"%string, Gsap.Num 100); ("opacity"%string, Gsap.Num 0)]
    (Some 0.5) None None None None.

Definition heroTimeline : Gsap.Timeline :=
  let tl := Gsap.timeline (Some (heroTrigger true)) in
  let tl := Gsap.to tl line1 "start" in
  let tl := Gsap.to tl line3 "start" in
  let tl := Gsap.to tl line2 "start" in
  Gsap.to tl heroInfoOut "start".

Definition scrollRotation (id : ObjId) : Gsap.Tween :=
  Gsap.mkTween Gsap.To (Gsap.RotationOf id) [("z"%string, Gsap.Num (PI * 0.5))]
               None None None None (Some (heroTrigger false)).

(** [rotateModel]: attach the scroll rotation if the model is there, come
    back next frame otherwise. *)
Definition rotateModel (s : State) : result State :=
  match model s with
  | Some id => Ok (gsapAdd s (scrollRotation id))
  | None => Ok (requestAnimationFrame s RotateModel)
  end.

Definition heroInfoIn : Gsap.Tween :=
  Gsap.mkTween Gsap.To (Gsap.Selector ".hero-info")
    [("opacity"%string, Gsap.Num 1); ("y"%string, Gsap.Num 0)]
    (Some 1) None None (Some 0.5) None.

(** *** The horizontal section ([ScrollTrigger.matchMedia]) *)

Definition horizontalScroll (wrapperNode sectionNode : nat) : Gsap.Tween :=
  Gsap.mkTween Gsap.To (Gsap.Node wrapperNode) [("x"%string, Gsap.Text "-250vw")]
    None None (Some "none"%string) None
    (Some (Gsap.mkScrollTrigger (Gsap.Node sectionNode) "top top"
             (Some "+=3000"%string) (Some 1) true)).

Definition cardReveal (card : nat) : Gsap.Tween :=
  Gsap.mkTween Gsap.From (Gsap.Node card)
    [("y"%string, Gsap.Num 50); ("opacity"%string, Gsap.Num 0)]
    (Some 0.8) None None None
    (Some (Gsap.mkScrollTrigger (Gsap.Node card) "top 85%" None None false)).

(** The function under ["(min-width: 1024px)"]. *)
Definition desktop (d : Document) : list Gsap.Tween :=
  match wrapper d, horizontalSection d with
  | Some w, Some h => [horizontalScroll w h]
  | _, _ => []
  end.

(** The function under ["(max-width: 1023px)"]. *)
Definition mobile (d : Document) : list Gsap.Tween :=
  map cardReveal (hCards d).

Definition mediaQueries
  : list (Gsap.MediaQuery * (Document -> list Gsap.Tween)) :=
  [ (Gsap.MinWidth 1024, desktop); (Gsap.MaxWidth 1023, mobile) ].

(** [ScrollTrigger.matchMedia]: a query's function runs while the query
    matches, and what it created is reverted when the query stops matching;
    so each query holds the tweens of its function exactly when it matches. *)
Definition matchMedia (d : Document) (viewportWidth : R)
  : list (Gsap.MediaQuery * list Gsap.Tween) :=
  map (fun qf => (fst qf,
                  if Gsap.matches (fst qf) viewportWidth then snd qf d else []))
      mediaQueries.

(** The tweens that are live through [matchMedia]. *)
Definition mediaTweens (s : State) : list Gsap.Tween :=
  List.concat (map snd (media s)).

(** *** The pointer listener of a card *)

Definition setProperty (s : State) (node : nat) (name : string) (v : CssLength) : State :=
  set_style s (fun n k =>
    if (Nat.eqb n node && String.eqb k name)%bool then Some v else style s n k).

Definition onMouseMove (card : nat) (clientX clientY : R) (rect : DOMRect) (s : State)
  : result State :=
  let x := clientX - left rect in
  let y := clientY - top rect in
  let s := setProperty s card "--x" (px x) in
  Ok (setProperty s card "--y" (px y)).

(** *** The script's top level *)

Definition ambientLight : Light := AmbientLight 0xffffff 0.1.
Definition blueSpotLight : Light :=
  SpotLight 0x0055ff 10 (Vector3.make 2 5 5) (PI / 4) 0.5.
Definition fillLight : Light := PointLight 0x00aaff 5 (Vector3.make (-3) (-2) 3).
Definition rimLight : Light := DirectionalLight 0xffffff 2 (Vector3.make 0 3 (-5)).

(** Lines 5 to 49: scene, camera, renderer, lights, and [let model = null].
    A new renderer has the size of its canvas (300 by 150 for a canvas that
    sets none) and pixel ratio 1 until the script sets them. *)
Definition setup (w : Window) (d : Document) : State :=
  let sizes := mkSizes (innerWidth w) (innerHeight w) in
  let camera := PerspectiveCamera.new 75 (width sizes / height sizes) 0.1 100 in
  let camera :=
    PerspectiveCamera.setPosition camera
      (Vector3.setZ (PerspectiveCamera.position camera) 4) in
  let renderer := WebGLRenderer.make true true 300 150 1 [] in
  let renderer := WebGLRenderer.setSize renderer (width sizes) (height sizes) in
  let renderer :=
    WebGLRenderer.setPixelRatio renderer (Rmin (devicePixelRatio w) 2) in
  mkState w d sizes camera renderer
          [CameraNode; LightNode ambientLight; LightNode blueSpotLight;
           LightNode fillLight; LightNode rimLight]
          [] None [] (Gsap.timeline None) [] [] (fun _ _ => None) [].

(** The whole script, run once when the page loads; [now] is the clock at
    that time.  The listeners it installs are the cases of [dispatch]. *)
Definition main (w : Window) (d : Document) (now : Z) : result State :=
  let s := setup w d in
  s <- animate now s ;;
  let s := set_tl s heroTimeline in
  s <- rotateModel s ;;
  let s := gsapAdd s heroInfoIn in
  Ok (set_media s (matchMedia d (viewportWidth w))).

(** *** The browser *)

Inductive Event : Type :=
| Loaded (gltfScene : Object3D)
| Progress (loaded total : R)
| Failed (error : string)
| Resized (w : Window)
| AnimationFrame (now : Z)
| MouseMoved (card : nat) (clientX clientY : R) (rect : DOMRect).

Definition runCallback (now : Z) (cb : Callback) (s : State) : result State :=
  match cb with
  | Animate => animate now s
  | RotateModel => rotateModel s
  end.

Fixpoint runCallbacks (now : Z) (cbs : list Callback) (s : State) : result State :=
  match cbs with
  | [] => Ok s
  | cb :: rest => s' <- runCallback now cb s ;; runCallbacks now rest s'
  end.

(** One display frame: the callbacks requested so far run in order; what
    they request is kept for the next frame.  GSAP's own ticker, which plays
    the tweens, is not part of it. *)
Definition onAnimationFrame (now : Z) (s : State) : result State :=
  runCallbacks now (frameCallbacks s) (set_frameCallbacks s []).

Definition dispatch (e : Event) (s : State) : result State :=
  match e with
  | Loaded g => onLoad g s
  | Progress loaded total => onProgress loaded total s
  | Failed error => onError error s
  | Resized w =>
      let s := set_window s w in
      s <- onResize s ;;
      Ok (set_media s (matchMedia (document s) (viewportWidth w)))
  | AnimationFrame now => onAnimationFrame now s
  | MouseMoved card clientX clientY rect =>
      if existsb (Nat.eqb card) (hCards (document s))
      then onMouseMove card clientX clientY rect s
      else Ok s
  end.

Fixpoint run (es : list Event) (s : State) : result State :=
  match es with
  | [] => Ok s
  | e :: rest => s' <- dispatch e s ;; run rest s'
  end.

(** A page lifetime: the script, then the events the browser delivers. *)
Definition page (w : Window) (d : Document) (now : Z) (es : list Event)
  : result State :=
  s <- main w d now ;; run es s.

(** A loader reports at most one terminal outcome. *)
Definition terminal (e : Event) : bool :=
  match e with
  | Loaded _ | Failed _ => true
  | _ => false
  end.

End Page.

(** * The vocabulary of the properties *)

Import Page.

(** A box moved by [d]. *)
Definition shifted (d : Vector3.t) (b : Box3.t) : Box3.t :=
  match b with
  | None => None
  | Some (lo, hi) => Some (Vector3.addVectors d lo, Vector3.addVectors d hi)
  end.

(** The asset as the success callback leaves it: moved by minus the centre
    of its box. *)
Definition centred (g : Object3D) : Object3D :=
  withPosition g (Vector3.sub (position g) (Box3.getCenter (setFromObject g))).

(** A scroll-driven rotation of a stored object: what [rotateModel]
    attaches.  (The idle rotation has no scroll trigger.) *)
Definition isScrollRotation (tw : Gsap.Tween) : bool :=
  match Gsap.target tw, Gsap.scrollTrigger tw with
  | Gsap.RotationOf _, Some _ => true
  | _, _ => false
  end.

Definition isRotateModel (cb : Callback) : bool :=
  match cb with RotateModel => true | Animate => false end.

(** How many scroll rotations are attached, and how many [rotateModel]
    calls are waiting for the next frame. *)
Definition attached (s : State) : nat :=
  List.length (filter isScrollRotation (animations s)).

Definition pending (s : State) : nat :=
  List.length (filter isRotateModel (frameCallbacks s)).

(** The model as [animate] leaves it at clock [now]. *)
Definition floated (now : Z) (o : Object3D) : Object3D :=
  withPosition o (Vector3.setY (position o) (floatOffset (IZR now))).

Definition floatModel (now : Z) (s : State) : State :=
  match model s with
  | Some id =>
      match nth_error (objects s) id with
      | Some o => set_objects s (replace (objects s) id (floated now o))
      | None => s
      end
  | None => s
  end.

(** What holds of every state the page can be in, for a document [d]. *)
Record Inv (d : Document) (s : State) : Prop := mkInv {
  inv_document : document s = d;
  inv_model : forall id, model s = Some id ->
      (id < List.length (objects s))%nat /\ In (ObjectNode id) (scene s);
  inv_queue :
      (frameCallbacks s = [Animate; RotateModel] /\ attached s = 0%nat) \/
      (frameCallbacks s = [Animate] /\ attached s = 1%nat /\ model s <> None);
  inv_rotations : forall tw, In tw (animations s) -> isScrollRotation tw = true ->
      exists id, tw = scrollRotation id;
  inv_tl : tl s = heroTimeline;
  inv_media : media s = matchMedia d (viewportWidth (window s))
}.

(** The state after a resize to [w], written out. *)
Definition afterResize (w : Window) (s : State) : State :=
  set_media
    (set_renderer
       (set_camera
          (set_sizes (set_window s w) (mkSizes (innerWidth w) (innerHeight w)))
          (PerspectiveCamera.updateProjectionMatrix
             (PerspectiveCamera.setAspect (camera s) (innerWidth w / innerHeight w))))
       (WebGLRenderer.setPixelRatio
          (WebGLRenderer.setSize (renderer s) (innerWidth w) (innerHeight w))
          (Rmin (devicePixelRatio w) 2)))
    (matchMedia (document s) (viewportWidth w)).

(** The state after a frame, written out. *)
Definition afterFrame (now : Z) (s : State) : State :=
  let s1 := render (floatModel now
                      (requestAnimationFrame (set_frameCallbacks s []) Animate)) in
  match frameCallbacks s with
  | [Animate; RotateModel] =>
      match model s with
      | Some id => gsapAdd s1 (scrollRotation id)
      | None => requestAnimationFrame s1 RotateModel
      end
  | _ => s1
  end.

(** A trace without a terminal outcome of the loader. *)
Definition quiet (es : list Event) : bool :=
  forallb (fun e => negb (terminal e)) es.

(** The object a terminal outcome stores: the asset, centred, or the
    fallback mesh. *)
Definition stored (e : Event) : option Object3D :=
  match e with
  | Loaded g =>
      Some (withPosition g (Vector3.sub (position g) (Box3.getCenter (setFromObject g))))
  | Failed _ => Some fallbackMesh
  | _ => None
  end.

(** The object [model] refers to, if any. *)
Definition modelObject (s : State) : option Object3D :=
  match model s with
  | Some id => nth_error (objects s) id
  | None => None
  end.

(** The window as the last resize left it. *)
Definition lastWindow (w : Window) (es : list Event) : Window :=
  fold_left (fun acc e => match e with Resized w' => w' | _ => acc end) es w.

(** Equal but for the height at which the object sits. *)
Definition sameButY (o o' : Object3D) : Prop :=
  geometry o' = geometry o /\ rotation o' = rotation o /\ material o' = material o /\
  Vector3.x (position o') = Vector3.x (position o) /\
  Vector3.z (position o') = Vector3.z (position o).

(** An asset whose vertices sit at heights 1 and 3 above its position. *)
Definition raisedAsset : Object3D :=
  {| position := Vector3.zero; rotation := Euler.zero;
     geometry := mkGeometry "BufferGeometry" [Vector3.make 0 1 0; Vector3.make 0 3 0];
     material := None |}.

(** Windows and documents for the scenarios: a desktop window 1200 wide, a
    phone 800 wide, a window whose viewport is 1023.2 CSS pixels wide (1279
    device pixels at 125% scaling); a document with the section (node 0),
    the wrapper (node 1) and two cards (nodes 2 and 3), the same document
    without the wrapper, and a document with one card. *)
Definition desk : Window := mkWindow 1200 800 1 1200.
Definition phone : Window := mkWindow 800 600 3 800.
Definition zoomed : Window := mkWindow 1023 800 (125 / 100) (5116 / 5).
Definition markup : Document := mkDocument (Some 0%nat) (Some 1%nat) [2%nat; 3%nat].
Definition markupWithoutWrapper : Document :=
  mkDocument (Some 0%nat) None [2%nat; 3%nat].
Definition oneCard : Document := mkDocument None None [7%nat].

(** The frame events of a trace, and the [animate] calls waiting for the
    next frame. *)
Definition isAnimationFrame (e : Event) : bool :=
  match e with AnimationFrame _ => true | _ => false end.

Definition isAnimate (cb : Callback) : bool :=
  match cb with Animate => true | RotateModel => false end.

(** The state after each kind of event, written out. *)
Definition afterLoad (g : Object3D) (s : State) : State :=
  gsapAdd
    (sceneAdd
       (set_objects (set_model s (Some (List.length (objects s))))
                    (objects s ++ [centred g]))
       (ObjectNode (List.length (objects s))))
    (idleRotation (List.length (objects s))).

Definition afterError (error : string) (s : State) : State :=
  set_model
    (sceneAdd
       (set_objects
          (set_console s
             (console s ++ [Error "An error occurred loading the model:" error]))
          (objects s ++ [fallbackMesh]))
       (ObjectNode (List.length (objects s))))
    (Some (List.length (objects s))).

Definition afterProgress (loaded total : R) (s : State) : State :=
  set_console s (console s ++ [Log (loaded / total * 100)]).

Definition afterMouse (card : nat) (clientX clientY : R) (rect : DOMRect) (s : State)
  : State :=
  if existsb (Nat.eqb card) (hCards (document s))
  then setProperty (setProperty s card "--x" (px (clientX - left rect)))
                   card "--y" (px (clientY - top rect))
  else s.

Definition after (e : Event) (s : State) : State :=
  match e with
  | Loaded g => afterLoad g s
  | Progress loaded total => afterProgress loaded total s
  | Failed error => afterError error s
  | Resized w => afterResize w s
  | AnimationFrame now => afterFrame now s
  | MouseMoved card clientX clientY rect => afterMouse card clientX clientY rect s
  end.

Definition afterAll (es : list Event) (s : State) : State :=
  fold_left (fun acc e => after e acc) es s.

(** An idle rotation: a tween on a stored object's rotation without a
    scroll trigger. *)
Definition isIdleRotation (tw : Gsap.Tween) : bool :=
  match Gsap.target tw, Gsap.scrollTrigger tw with
  | Gsap.RotationOf _, None => true
  | _, _ => false
  end.

Definition isLoaded (e : Event) : bool :=
  match e with Loaded _ => true | _ => false end.

(** The nodes the script itself puts in the scene. *)
Definition baseScene : list Child :=
  [CameraNode; LightNode ambientLight; LightNode blueSpotLight;
   LightNode fillLight; LightNode rimLight].

(** The camera and the renderer agree with the window: what the script
    establishes and the resize listener re-establishes. *)
Definition inSync (s : State) : Prop :=
  sizes s = mkSizes (innerWidth (window s)) (innerHeight (window s)) /\
  PerspectiveCamera.aspect (camera s)
    = innerWidth (window s) / innerHeight (window s) /\
  PerspectiveCamera.projectionMatrix (camera s)
    = PerspectiveCamera.frustumOf 75 (innerWidth (window s) / innerHeight (window s))
        0.1 100 /\
  PerspectiveCamera.fov (camera s) = 75 /\
  PerspectiveCamera.near (camera s) = 0.1 /\
  PerspectiveCamera.far (camera s) = 100 /\
  PerspectiveCamera.position (camera s) = Vector3.make 0 0 4 /\
  WebGLRenderer.getSize (renderer s)
    = (innerWidth (window s), innerHeight (window s)) /\
  WebGLRenderer.pixelRatio (renderer s) = Rmin (devicePixelRatio (window s)) 2 /\
  WebGLRenderer.alpha (renderer s) = true /\
  WebGLRenderer.antialias (renderer s) = true.

(** The events that reach the 3D scene and the tweens: the loader's terminal
    outcomes and the frames. *)
Definition drives3D (e : Event) : bool := terminal e || isAnimationFrame e.

(** The number of terminal outcomes in a trace. *)
Definition outcomes (es : list Event) : nat := List.length (filter terminal es).

(** The pointer's offset from the card's corner at the last pointer move
    over [card] in a trace, if there was one. *)
Definition lastMove (card : nat) (es : list Event) : option (R * R) :=
  fold_left
    (fun acc e =>
       match e with
       | MouseMoved c clientX clientY rect =>
           if Nat.eqb c card
           then Some (clientX - left rect, clientY - top rect)
           else acc
       | _ => acc
       end)
    es None.

(** An asset without any mesh, placed at (1, 2, 3). *)
Definition emptyGroup : Object3D :=
  {| position := Vector3.make 1 2 3; rotation := Euler.zero;
     geometry := mkGeometry "Group" []; material := None |}.

(** What the variables of [card] are, given the moves seen so far. *)
Definition published (d : Document) (card : nat) (acc : option (R * R)) (s : State)
  : Prop :=
  document s = d /\
  style s card "--x" =
    (if existsb (Nat.eqb card) (hCards d)
     then option_map (fun m => px (fst m)) acc else None) /\
  style s card "--y" =
    (if existsb (Nat.eqb card) (hCards d)
     then option_map (fun m => px (snd m)) acc else None) /\
  (forall name, name <> "--x"%string -> name <> "--y"%string ->
     style s card name = None).

(** What an event writes to the console. *)
Definition logged (e : Event) : list LogEntry :=
  match e with
  | Progress loaded total => [Log (loaded / total * 100)]
  | Failed error => [Error "An error occurred loading the model:" error]
  | _ => []
  end.

(** * Properties *)

(** ** Vectors and boxes *)

Lemma Rmin_shift (d a b : R) : Rmin (d + a) (d + b) = d + Rmin a b.
Proof.
  unfold Rmin.
  destruct (Rle_dec (d + a) (d + b)), (Rle_dec a b); lra.
Qed.

Lemma Rmax_shift (d a b : R) : Rmax (d + a) (d + b) = d + Rmax a b.
Proof.
  unfold Rmax.
  destruct (Rle_dec (d + a) (d + b)), (Rle_dec a b); lra.
Qed.

Lemma Vector3_eq (a b : Vector3.t) :
  Vector3.x a = Vector3.x b -> Vector3.y a = Vector3.y b ->
  Vector3.z a = Vector3.z b -> a = b.
Proof.
  destruct a, b; simpl; intros; subst; reflexivity.
Qed.

Lemma expandByPoint_shifted (d : Vector3.t) (b : Box3.t) (p : Vector3.t) :
  Box3.expandByPoint (shifted d b) (Vector3.addVectors d p)
  = shifted d (Box3.expandByPoint b p).
Proof.
  destruct b as [[lo hi]|]; simpl; [|reflexivity].
  unfold Vector3.min, Vector3.max; simpl.
  rewrite !Rmin_shift, !Rmax_shift. reflexivity.
Qed.

Lemma fold_expand_shifted (d : Vector3.t) (pts : list Vector3.t) :
  forall b,
    fold_left Box3.expandByPoint (map (Vector3.addVectors d) pts) (shifted d b)
    = shifted d (fold_left Box3.expandByPoint pts b).
Proof.
  induction pts as [|p pts IH]; intros b; simpl; [reflexivity|].
  rewrite expandByPoint_shifted. apply IH.
Qed.

(** The world box of an object is the box of its vertices moved to its
    position. *)
Lemma setFromObject_shifted (o : Object3D) :
  setFromObject o = shifted (position o) (Box3.setFromPoints (vertices (geometry o))).
Proof.
  unfold setFromObject, Box3.setFromPoints.
  apply (fold_expand_shifted (position o) (vertices (geometry o)) Box3.empty).
Qed.

Lemma centred_box_centre (g : Object3D) :
  Box3.getCenter (setFromObject (centred g)) = Vector3.zero.
Proof.
  rewrite setFromObject_shifted. unfold centred at 1. simpl.
  rewrite setFromObject_shifted.
  destruct (Box3.setFromPoints (vertices (geometry g))) as [[lo hi]|]; simpl;
    [|reflexivity].
  apply Vector3_eq; simpl; lra.
Qed.

(** ** The object store *)

Lemma nth_error_snoc (os : list Object3D) (o : Object3D) :
  nth_error (os ++ [o]) (List.length os) = Some o.
Proof.
  induction os as [|a os IH]; simpl; [reflexivity | exact IH].
Qed.

Lemma replace_snoc (os : list Object3D) (o o' : Object3D) :
  replace (os ++ [o]) (List.length os) o' = os ++ [o'].
Proof.
  induction os as [|a os IH]; simpl; [reflexivity | now rewrite IH].
Qed.

Lemma length_replace (os : list Object3D) (id : ObjId) (o : Object3D) :
  List.length (replace os id o) = List.length os.
Proof.
  revert id; induction os as [|a os IH]; intros [|id]; simpl; auto.
Qed.

Lemma nth_error_replace_same (os : list Object3D) (id : ObjId) (o : Object3D) :
  (id < List.length os)%nat -> nth_error (replace os id o) id = Some o.
Proof.
  revert id; induction os as [|a os IH]; intros [|id] H; simpl in *; try lia.
  - reflexivity.
  - apply IH; lia.
Qed.

Lemma nth_error_replace_other (os : list Object3D) (id k : ObjId) (o : Object3D) :
  k <> id -> nth_error (replace os id o) k = nth_error os k.
Proof.
  revert id k; induction os as [|a os IH]; intros [|id] [|k] H; simpl; auto.
  - contradiction.
Qed.

(** ** The success callback *)

Lemma onLoad_result (g : Object3D) (s : State) :
  onLoad g s =
  Ok (gsapAdd
        (sceneAdd
           (set_objects (set_model s (Some (List.length (objects s))))
                        (objects s ++ [centred g]))
           (ObjectNode (List.length (objects s))))
        (idleRotation (List.length (objects s)))).
Proof.
  unfold onLoad, alloc, modify, deref; simpl.
  rewrite nth_error_snoc; simpl.
  rewrite replace_snoc. reflexivity.
Qed.

(** C3.  Whatever asset the loader hands over and wherever its meshes sit,
    the success callback stores it as the model, moves it by minus the centre
    of its bounding box, so that the centre of the box of the moved asset is
    the origin (exactly, in real arithmetic), adds it to the scene, and starts
    one tween on its rotation: to [y = 2 * PI], over 20 units, repeated
    forever ([repeat = -1]), with no easing ([ease = "none"]). *)
Theorem onLoad_centres_attaches_and_spins :
  forall (g : Object3D) (s : State),
  exists s',
    dispatch (Loaded g) s = Ok s' /\
    let id := List.length (objects s) in
    model s' = Some id /\
    nth_error (objects s') id =
      Some (withPosition g (Vector3.sub (position g)
                              (Box3.getCenter (setFromObject g)))) /\
    (forall o, nth_error (objects s') id = Some o ->
       Box3.getCenter (setFromObject o) = Vector3.zero /\
       geometry o = geometry g /\ rotation o = rotation g) /\
    scene s' = scene s ++ [ObjectNode id] /\
    animations s' = animations s ++ [idleRotation id] /\
    Gsap.direction (idleRotation id) = Gsap.To /\
    Gsap.target (idleRotation id) = Gsap.RotationOf id /\
    Gsap.props (idleRotation id) = [("y"%string, Gsap.Num (2 * PI))] /\
    Gsap.duration (idleRotation id) = Some 20 /\
    Gsap.repeat (idleRotation id) = Some (-1)%Z /\
    Gsap.ease (idleRotation id) = Some "none"%string /\
    Gsap.scrollTrigger (idleRotation id) = None.
Proof.
  intros g s. eexists. split; [apply onLoad_result|].
  simpl. rewrite nth_error_snoc.
  repeat split; try reflexivity.
  - injection H as <-. apply centred_box_centre.
  - injection H as <-. reflexivity.
  - injection H as <-. reflexivity.
  - replace (2 * PI) with (PI * 2) by lra. reflexivity.
Qed.

(** ** Reachable states *)

Lemma animate_result (now : Z) (s : State) :
  (forall id, model s = Some id -> (id < List.length (objects s))%nat) ->
  animate now s = Ok (render (floatModel now (requestAnimationFrame s Animate))).
Proof.
  intros Hv. unfold animate, floatModel, modify, deref. simpl.
  destruct (model s) as [id|] eqn:Hm; simpl; [|reflexivity].
  destruct (nth_error (objects s) id) as [o|] eqn:Ho; simpl; [reflexivity|].
  apply nth_error_None in Ho. specialize (Hv id eq_refl). lia.
Qed.

Lemma attached_gsapAdd (s : State) (tw : Gsap.Tween) :
  attached (gsapAdd s tw) =
  (attached s + (if isScrollRotation tw then 1 else 0))%nat.
Proof.
  unfold attached, gsapAdd; simpl.
  rewrite filter_app, length_app; simpl.
  destruct (isScrollRotation tw); reflexivity.
Qed.

Lemma main_result (w : Window) (d : Document) (now : Z) :
  main w d now =
  Ok (set_media
        (gsapAdd
           (requestAnimationFrame
              (set_tl (render (requestAnimationFrame (setup w d) Animate)) heroTimeline)
              RotateModel)
           heroInfoIn)
        (matchMedia d (viewportWidth w))).
Proof. reflexivity. Qed.

Lemma main_inv (w : Window) (d : Document) (now : Z) :
  exists s, main w d now = Ok s /\ Inv d s /\ model s = None /\ window s = w.
Proof.
  eexists. split; [apply main_result|]. split; [|split; reflexivity].
  constructor; simpl; try reflexivity.
  - intros id H; discriminate H.
  - left. split; reflexivity.
  - intros tw [<-|[]] H. discriminate H.
Qed.

Lemma onError_result (error : string) (s : State) :
  onError error s =
  Ok (set_model
        (sceneAdd
           (set_objects
              (set_console s
                 (console s ++ [Error "An error occurred loading the model:" error]))
              (objects s ++ [fallbackMesh]))
           (ObjectNode (List.length (objects s))))
        (Some (List.length (objects s)))).
Proof. reflexivity. Qed.

Lemma onResize_result (s : State) :
  onResize s =
  Ok (set_renderer
        (set_camera
           (set_sizes s (mkSizes (innerWidth (window s)) (innerHeight (window s))))
           (PerspectiveCamera.updateProjectionMatrix
              (PerspectiveCamera.setAspect (camera s)
                 (innerWidth (window s) / innerHeight (window s)))))
        (WebGLRenderer.setPixelRatio
           (WebGLRenderer.setSize (renderer s)
              (innerWidth (window s)) (innerHeight (window s)))
           (Rmin (devicePixelRatio (window s)) 2))).
Proof. reflexivity. Qed.

Lemma resized_result (w : Window) (s : State) :
  dispatch (Resized w) s = Ok (afterResize w s).
Proof.
  change (dispatch (Resized w) s)
    with (s1 <- onResize (set_window s w) ;;
          Ok (set_media s1 (matchMedia (document s1) (viewportWidth w)))).
  rewrite onResize_result. reflexivity.
Qed.

Lemma Inv_loaded (d : Document) (g : Object3D) (s : State) :
  Inv d s ->
  exists s', dispatch (Loaded g) s = Ok s' /\ Inv d s' /\
             model s' = Some (List.length (objects s)).
Proof.
  intros [Hd Hm Hq Hr Ht Hmed].
  eexists. split; [apply onLoad_result|]. split; [|reflexivity].
  constructor; simpl; auto.
  - intros id [= <-]. rewrite length_app; simpl. split; [lia|].
    apply in_or_app; right; left; reflexivity.
  - fold (attached (gsapAdd s (idleRotation (List.length (objects s))))).
    rewrite attached_gsapAdd; simpl. rewrite Nat.add_0_r.
    destruct Hq as [[Hc Ha]|[Hc [Ha _]]]; [left|right]; repeat split; auto.
    discriminate.
  - intros tw Hin Hs. apply in_app_or in Hin as [Hin|[<-|[]]]; [eauto|discriminate Hs].
Qed.

Lemma Inv_failed (d : Document) (error : string) (s : State) :
  Inv d s ->
  exists s', dispatch (Failed error) s = Ok s' /\ Inv d s' /\
             model s' = Some (List.length (objects s)).
Proof.
  intros [Hd Hm Hq Hr Ht Hmed].
  eexists. split; [apply onError_result|]. split; [|reflexivity].
  constructor; simpl; auto.
  - intros id [= <-]. rewrite length_app; simpl. split; [lia|].
    apply in_or_app; right; left; reflexivity.
  - destruct Hq as [[Hc Ha]|[Hc [Ha _]]]; [left|right]; repeat split; auto.
    discriminate.
Qed.

Lemma Inv_progress (d : Document) (loaded total : R) (s : State) :
  Inv d s ->
  exists s', dispatch (Progress loaded total) s = Ok s' /\ Inv d s' /\
             model s' = model s.
Proof.
  intros [Hd Hm Hq Hr Ht Hmed].
  eexists. split; [reflexivity|]. split; [|reflexivity].
  constructor; simpl; auto.
Qed.

Lemma Inv_resized (d : Document) (w : Window) (s : State) :
  Inv d s ->
  exists s', dispatch (Resized w) s = Ok s' /\ Inv d s' /\
             model s' = model s /\ window s' = w.
Proof.
  intros [Hd Hm Hq Hr Ht Hmed].
  eexists. split; [reflexivity|]. split; [|split; reflexivity].
  constructor; simpl; auto.
  rewrite Hd. reflexivity.
Qed.

Lemma Inv_mouse (d : Document) (card : nat) (cx cy : R) (rect : DOMRect) (s : State) :
  Inv d s ->
  exists s', dispatch (MouseMoved card cx cy rect) s = Ok s' /\ Inv d s' /\
             model s' = model s.
Proof.
  intros [Hd Hm Hq Hr Ht Hmed]. simpl.
  destruct (existsb (Nat.eqb card) (hCards (document s))).
  - eexists. split; [reflexivity|]. split; [|reflexivity].
    constructor; simpl; auto.
  - eexists. split; [reflexivity|]. split; [|reflexivity].
    constructor; simpl; auto.
Qed.

(** ** One display frame *)

Ltac float_cases :=
  unfold floatModel; simpl;
  repeat match goal with
         | |- context [match model ?s with _ => _ end] => destruct (model s) eqn:?
         | |- context [match nth_error ?l ?n with _ => _ end] =>
             destruct (nth_error l n) eqn:?
         end; simpl.

Lemma floatModel_model (now : Z) (s : State) : model (floatModel now s) = model s.
Proof. float_cases; congruence. Qed.

Lemma floatModel_scene (now : Z) (s : State) : scene (floatModel now s) = scene s.
Proof. float_cases; reflexivity. Qed.

Lemma floatModel_animations (now : Z) (s : State) :
  animations (floatModel now s) = animations s.
Proof. float_cases; reflexivity. Qed.

Lemma floatModel_frameCallbacks (now : Z) (s : State) :
  frameCallbacks (floatModel now s) = frameCallbacks s.
Proof. float_cases; reflexivity. Qed.

Lemma floatModel_window (now : Z) (s : State) : window (floatModel now s) = window s.
Proof. float_cases; reflexivity. Qed.

Lemma floatModel_document (now : Z) (s : State) :
  document (floatModel now s) = document s.
Proof. float_cases; reflexivity. Qed.

Lemma floatModel_camera (now : Z) (s : State) : camera (floatModel now s) = camera s.
Proof. float_cases; reflexivity. Qed.

Lemma floatModel_renderer (now : Z) (s : State) :
  renderer (floatModel now s) = renderer s.
Proof. float_cases; reflexivity. Qed.

Lemma floatModel_tl (now : Z) (s : State) : tl (floatModel now s) = tl s.
Proof. float_cases; reflexivity. Qed.

Lemma floatModel_media (now : Z) (s : State) : media (floatModel now s) = media s.
Proof. float_cases; reflexivity. Qed.

Lemma floatModel_length (now : Z) (s : State) :
  List.length (objects (floatModel now s)) = List.length (objects s).
Proof. float_cases; auto using length_replace. Qed.

Lemma frame_result (d : Document) (now : Z) (s : State) :
  Inv d s -> dispatch (AnimationFrame now) s = Ok (afterFrame now s).
Proof.
  intros [Hd Hm Hq Hr Ht Hmed].
  assert (Hv : forall id, model (set_frameCallbacks s []) = Some id ->
                          (id < List.length (objects (set_frameCallbacks s [])))%nat).
  { simpl. intros id H. apply Hm, H. }
  unfold dispatch, onAnimationFrame, afterFrame.
  destruct Hq as [[Hc Ha]|[Hc [Ha Hn]]]; rewrite Hc; simpl runCallbacks;
    unfold runCallback; rewrite (animate_result now _ Hv); simpl bind.
  - unfold rotateModel. simpl model. rewrite floatModel_model. simpl model.
    destruct (model s); reflexivity.
  - reflexivity.
Qed.

Lemma afterFrame_model (now : Z) (s : State) : model (afterFrame now s) = model s.
Proof.
  unfold afterFrame.
  destruct (frameCallbacks s) as [|[] [|[] [|? ?]]]; simpl;
    try (rewrite floatModel_model; reflexivity).
  destruct (model s) eqn:E; simpl; rewrite floatModel_model; simpl; auto.
Qed.

Create Rewrite HintDb frame.

#[local] Hint Rewrite floatModel_model floatModel_scene floatModel_animations
  floatModel_frameCallbacks floatModel_window floatModel_document
  floatModel_camera floatModel_renderer floatModel_tl floatModel_media
  floatModel_length : frame.

Ltac frame_simpl := simpl; autorewrite with frame; simpl.

Lemma attached_after_float (now : Z) (s : State) (cbs : list Callback) :
  attached (render (floatModel now (requestAnimationFrame (set_frameCallbacks s cbs) Animate)))
  = attached s.
Proof. unfold attached. frame_simpl. reflexivity. Qed.

Lemma Inv_frame (d : Document) (now : Z) (s : State) :
  Inv d s ->
  exists s', dispatch (AnimationFrame now) s = Ok s' /\ Inv d s' /\
             model s' = model s.
Proof.
  intros HI. exists (afterFrame now s).
  split; [apply (frame_result d), HI|]. split; [|apply afterFrame_model].
  destruct HI as [Hd Hm Hq Hr Ht Hmed].
  unfold afterFrame.
  destruct Hq as [[Hc Ha]|[Hc [Ha Hn]]]; rewrite Hc.
  - destruct (model s) as [id|] eqn:Em.
    + constructor; try (frame_simpl; now auto).
      * frame_simpl. rewrite Em. exact Hm.
      * right. rewrite attached_gsapAdd, attached_after_float, Ha.
        frame_simpl. rewrite Em. repeat split; auto. discriminate.
      * frame_simpl. intros tw Hin Hs.
        apply in_app_or in Hin as [Hin|[<-|[]]]; eauto.
    + constructor; try (frame_simpl; now auto).
      * frame_simpl. rewrite Em. exact Hm.
      * left. split; [frame_simpl; reflexivity|].
        unfold attached. frame_simpl. exact Ha.
  - constructor; try (frame_simpl; now auto).
    right. rewrite attached_after_float. frame_simpl. repeat split; auto.
Qed.

(** ** Every event, every trace *)

Lemma Inv_dispatch (d : Document) (e : Event) (s : State) :
  Inv d s ->
  exists s', dispatch e s = Ok s' /\ Inv d s' /\
             (terminal e = false -> model s' = model s).
Proof.
  intros HI. destruct e as [g|l t|err|w|now|card cx cy rect].
  - destruct (Inv_loaded d g s HI) as (s' & H1 & H2 & _).
    exists s'. split; [exact H1|]. split; [exact H2|]. intros H; discriminate H.
  - destruct (Inv_progress d l t s HI) as (s' & H1 & H2 & H3).
    exists s'. split; [exact H1|]. split; [exact H2|]. intros _; exact H3.
  - destruct (Inv_failed d err s HI) as (s' & H1 & H2 & _).
    exists s'. split; [exact H1|]. split; [exact H2|]. intros H; discriminate H.
  - destruct (Inv_resized d w s HI) as (s' & H1 & H2 & H3 & _).
    exists s'. split; [exact H1|]. split; [exact H2|]. intros _; exact H3.
  - destruct (Inv_frame d now s HI) as (s' & H1 & H2 & H3).
    exists s'. split; [exact H1|]. split; [exact H2|]. intros _; exact H3.
  - destruct (Inv_mouse d card cx cy rect s HI) as (s' & H1 & H2 & H3).
    exists s'. split; [exact H1|]. split; [exact H2|]. intros _; exact H3.
Qed.

Lemma Inv_run (d : Document) (es : list Event) :
  forall s, Inv d s ->
  exists s', run es s = Ok s' /\ Inv d s' /\
             (quiet es = true -> model s' = model s).
Proof.
  induction es as [|e es IH]; intros s HI.
  - exists s. split; [reflexivity|]. split; [exact HI|]. reflexivity.
  - destruct (Inv_dispatch d e s HI) as (s1 & H1 & HI1 & Hm1).
    destruct (IH s1 HI1) as (s2 & H2 & HI2 & Hm2).
    exists s2. simpl. rewrite H1. simpl.
    split; [exact H2|]. split; [exact HI2|].
    intros Hq. apply andb_prop in Hq as [Hq1 Hq2].
    rewrite (Hm2 Hq2). apply Hm1.
    destruct (terminal e); [discriminate Hq1 | reflexivity].
Qed.

Lemma run_app (es1 es2 : list Event) :
  forall s, run (es1 ++ es2) s = (s' <- run es1 s ;; run es2 s').
Proof.
  induction es1 as [|e es1 IH]; intros s; simpl; [reflexivity|].
  destruct (dispatch e s) as [s1|err]; simpl; [apply IH | reflexivity].
Qed.

Lemma page_app (w : Window) (d : Document) (now : Z) (es1 es2 : list Event) :
  page w d now (es1 ++ es2) = (s <- page w d now es1 ;; run es2 s).
Proof.
  unfold page. destruct (main w d now) as [s|err]; simpl; [apply run_app | reflexivity].
Qed.

(** No callback ever throws, and every state of the page satisfies [Inv]. *)
Lemma page_reachable (w : Window) (d : Document) (now : Z) (es : list Event) :
  exists s, page w d now es = Ok s /\ Inv d s /\
            (quiet es = true -> model s = None).
Proof.
  destruct (main_inv w d now) as (s0 & H0 & HI0 & Hm0 & _).
  destruct (Inv_run d es s0 HI0) as (s & H & HI & Hm).
  exists s. unfold page. rewrite H0. simpl.
  split; [exact H|]. split; [exact HI|].
  intros Hq. rewrite (Hm Hq). exact Hm0.
Qed.

Lemma quiet_firstn (k : nat) (es : list Event) :
  quiet es = true -> quiet (firstn k es) = true.
Proof.
  revert k; induction es as [|e es IH]; intros [|k] H; simpl in *; auto.
  apply andb_prop in H as [H1 H2]. rewrite H1. simpl. apply IH, H2.
Qed.

(** ** The shared reference *)

Lemma terminal_sets_model (d : Document) (e : Event) (s : State) :
  Inv d s -> terminal e = true ->
  exists s', dispatch e s = Ok s' /\ Inv d s' /\
             model s' = Some (List.length (objects s)) /\
             nth_error (objects s') (List.length (objects s)) = stored e.
Proof.
  intros HI He. destruct e as [g|l t|err|w|now|card cx cy rect]; try discriminate He.
  - destruct (Inv_loaded d g s HI) as (s' & H1 & H2 & H3).
    exists s'. split; [exact H1|]. split; [exact H2|]. split; [exact H3|].
    simpl in H1. rewrite onLoad_result in H1. injection H1 as <-.
    simpl. apply nth_error_snoc.
  - destruct (Inv_failed d err s HI) as (s' & H1 & H2 & H3).
    exists s'. split; [exact H1|]. split; [exact H2|]. split; [exact H3|].
    simpl in H1. rewrite onError_result in H1. injection H1 as <-.
    simpl. apply nth_error_snoc.
Qed.

(** C1.  In a page lifetime in which the loader reports one terminal outcome
    [e] (after the events [pre], before the events [post], none of which is a
    terminal outcome), the variable [model] is [null] at the start and after
    every event of [pre]; the callback of [e] sets it to a reference [id] to
    the loaded asset (success) or to the fallback mesh (failure); and it is
    that same reference after every event of [post]. *)
Theorem model_is_set_exactly_once :
  forall (w : Window) (d : Document) (now : Z)
         (pre : list Event) (e : Event) (post : list Event),
    quiet pre = true -> terminal e = true -> quiet post = true ->
    (forall k, exists s,
        page w d now (firstn k pre) = Ok s /\ model s = None) /\
    exists id,
      (exists s o,
          page w d now (pre ++ [e]) = Ok s /\ model s = Some id /\
          nth_error (objects s) id = Some o /\ stored e = Some o) /\
      (forall k, exists s,
          page w d now (pre ++ [e] ++ firstn k post) = Ok s /\ model s = Some id).
Proof.
  intros w d now pre e post Hpre He Hpost.
  split.
  - intros k.
    destruct (page_reachable w d now (firstn k pre)) as (s & H & _ & Hm).
    exists s. split; [exact H|]. apply Hm, quiet_firstn, Hpre.
  - destruct (page_reachable w d now pre) as (s0 & H0 & HI0 & _).
    destruct (terminal_sets_model d e s0 HI0 He) as (s1 & H1 & HI1 & Hm1 & Ho1).
    exists (List.length (objects s0)).
    assert (Hrun : page w d now (pre ++ [e]) = Ok s1).
    { rewrite page_app, H0. simpl. rewrite H1. reflexivity. }
    split.
    + destruct (stored e) as [o|] eqn:Es.
      * exists s1, o. auto.
      * destruct e; discriminate.
    + intros k.
      destruct (Inv_run d (firstn k post) s1 HI1) as (s2 & H2 & _ & Hm2).
      exists s2. split.
      * rewrite app_assoc, page_app, Hrun. simpl. exact H2.
      * rewrite (Hm2 (quiet_firstn k post Hpost)). exact Hm1.
Qed.

Lemma model_is_set_exactly_once_witness :
  (forall k, exists s,
      page desk markup 0
           (firstn k [AnimationFrame 16; Progress 1 2]) = Ok s /\ model s = None) /\
  exists id,
    (exists s o,
        page desk markup 0
             ([AnimationFrame 16; Progress 1 2] ++ [Failed "404"]) = Ok s /\
        model s = Some id /\
        nth_error (objects s) id = Some o /\ stored (Failed "404") = Some o) /\
    (forall k, exists s,
        page desk markup 0
             ([AnimationFrame 16; Progress 1 2] ++ [Failed "404"] ++
              firstn k [AnimationFrame 32; Resized phone; AnimationFrame 48])
        = Ok s /\ model s = Some id).
Proof.
  apply (model_is_set_exactly_once
           desk markup 0
           [AnimationFrame 16; Progress 1 2] (Failed "404")
           [AnimationFrame 32; Resized phone; AnimationFrame 48]);
    reflexivity.
Defined.

(** ** The hero timeline *)

Lemma heroTimeline_unfolded :
  heroTimeline =
  Gsap.mkTimeline (Some (heroTrigger true)) [("start"%string, 0)]
    [(0, line1); (0, line3); (0, line2); (0, heroInfoOut)].
Proof. reflexivity. Qed.

(** ** The rotation retry *)

(** C2.  In every state the page can reach: [rotateModel] is either waiting
    for the next frame, once, or has attached its rotation, once, never both
    ([pending + attached = 1]); while [model] is [null] it is waiting and a
    frame leaves it waiting, once, with nothing attached; once [model] is set,
    the next frame leaves the rotation attached, to that model if it was not
    attached before, and [rotateModel] no longer waiting.  What it attaches
    turns the model to [z = PI / 2] and is scrubbed by the trigger of the hero
    timeline (same trigger, start, end and scrub). *)
Theorem rotateModel_retries_then_attaches_once :
  forall (w : Window) (d : Document) (now : Z) (es : list Event),
  exists s,
    page w d now es = Ok s /\
    (pending s + attached s = 1)%nat /\
    (model s = None -> pending s = 1%nat /\ attached s = 0%nat) /\
    (forall t, exists s',
        dispatch (AnimationFrame t) s = Ok s' /\
        match model s with
        | None =>
            model s' = None /\ pending s' = 1%nat /\ attached s' = 0%nat /\
            animations s' = animations s
        | Some id =>
            pending s' = 0%nat /\ attached s' = 1%nat /\
            (attached s = 0%nat -> animations s' = animations s ++ [scrollRotation id]) /\
            (attached s = 1%nat -> animations s' = animations s)
        end) /\
    (forall tw, In tw (animations s) -> isScrollRotation tw = true ->
       exists id hero st,
         tw = scrollRotation id /\
         Gsap.direction tw = Gsap.To /\
         Gsap.target tw = Gsap.RotationOf id /\
         Gsap.props tw = [("z"%string, Gsap.Num (PI / 2))] /\
         Gsap.tlScrollTrigger (tl s) = Some hero /\
         Gsap.scrollTrigger tw = Some st /\
         Gsap.trigger st = Gsap.trigger hero /\
         Gsap.start st = Gsap.start hero /\
         Gsap.end_ st = Gsap.end_ hero /\
         Gsap.scrub st = Gsap.scrub hero).
Proof.
  intros w d now es.
  destruct (page_reachable w d now es) as (s & H & HI & _).
  exists s. split; [exact H|].
  pose proof HI as [Hd Hm Hq Hr Ht Hmed].
  assert (Hpa : (pending s + attached s = 1)%nat).
  { destruct Hq as [[Hc Ha]|[Hc [Ha _]]]; unfold pending; rewrite Hc, Ha; reflexivity. }
  split; [exact Hpa|].
  split.
  { intros Hn. destruct Hq as [[Hc Ha]|[_ [_ Hne]]]; [|contradiction].
    unfold pending; rewrite Hc; auto. }
  split.
  { intros t. exists (afterFrame t s). split; [apply (frame_result d), HI|].
    unfold afterFrame.
    destruct Hq as [[Hc Ha]|[Hc [Ha Hne]]]; rewrite Hc.
    - destruct (model s) as [id|] eqn:Em.
      + rewrite attached_gsapAdd, attached_after_float, Ha.
        split; [unfold pending; frame_simpl; reflexivity|].
        split; [reflexivity|].
        split; [intros _; frame_simpl; reflexivity | intros C; discriminate C].
      + split; [frame_simpl; exact Em|].
        split; [unfold pending; frame_simpl; reflexivity|].
        split; [unfold attached; frame_simpl; exact Ha | frame_simpl; reflexivity].
    - destruct (model s) as [id|] eqn:Em; [|contradiction].
      rewrite attached_after_float, Ha.
      split; [unfold pending; frame_simpl; reflexivity|].
      split; [reflexivity|].
      split; [intros C; discriminate C | intros _; frame_simpl; reflexivity]. }
  intros tw Hin Hs. destruct (Hr tw Hin Hs) as [id ->].
  exists id, (heroTrigger true), (heroTrigger false).
  rewrite Ht, heroTimeline_unfolded. simpl.
  repeat split.
  replace (PI / 2) with (PI * 0.5) by lra. reflexivity.
Qed.

(** ** The failure callback *)

(** C4.  Whatever the error and whatever the state (whatever was loaded or
    drawn before), the failure callback logs the error, stores one new mesh,
    adds it to the scene and makes [model] refer to it.  The mesh is the
    constant [fallbackMesh]: an icosahedron of radius 1.5 (twelve vertices)
    with the fixed material (colour 0x111111, roughness 0.3, metalness 0.8)
    whose [wireframe] is [true]; so any two failures, in any two states,
    leave the same object behind the reference. *)
Theorem onError_installs_the_fallback :
  forall (error : string) (s : State),
  exists s',
    dispatch (Failed error) s = Ok s' /\
    let id := List.length (objects s) in
    model s' = Some id /\
    objects s' = objects s ++ [fallbackMesh] /\
    modelObject s' = Some fallbackMesh /\
    scene s' = scene s ++ [ObjectNode id] /\
    animations s' = animations s /\
    console s' = console s ++ [Error "An error occurred loading the model:" error] /\
    geometry fallbackMesh = IcosahedronGeometry 1.5 /\
    geometryType (geometry fallbackMesh) = "IcosahedronGeometry"%string /\
    List.length (vertices (geometry fallbackMesh)) = 12%nat /\
    material fallbackMesh =
      Some {| color := 1118481; roughness := 0.3; metalness := 0.8;
              wireframe := true |} /\
    (forall (error2 : string) (s2 : State),
     exists s2',
       dispatch (Failed error2) s2 = Ok s2' /\ modelObject s2' = modelObject s').
Proof.
  intros error s. eexists. split; [apply onError_result|].
  assert (Hobj : forall e0 s0 s0', onError e0 s0 = Ok s0' ->
                                   modelObject s0' = Some fallbackMesh).
  { intros e0 s0 s0' H0. rewrite onError_result in H0. injection H0 as <-.
    unfold modelObject; simpl. apply nth_error_snoc. }
  simpl.
  split; [reflexivity|]. split; [reflexivity|].
  split; [apply (Hobj error s), onError_result|].
  split; [reflexivity|]. split; [reflexivity|]. split; [reflexivity|].
  split; [reflexivity|]. split; [reflexivity|]. split; [reflexivity|].
  split; [reflexivity|].
  intros error2 s2. eexists. split; [apply onError_result|].
  rewrite (Hobj error2 s2 _ (onError_result error2 s2)).
  symmetry. apply (Hobj error s), onError_result.
Qed.

(** ** The resize listener *)

(** C5.  After a resize to a window [w], in any state: [sizes] holds the new
    width and height, the camera's aspect is their quotient, the projection
    matrix is the one built from the camera's parameters with that aspect,
    the renderer reports the new size, and its pixel ratio is the smaller of
    the device's and 2. *)
Theorem resize_updates_camera_and_renderer :
  forall (w : Window) (s : State),
  exists s',
    dispatch (Resized w) s = Ok s' /\
    window s' = w /\
    sizes s' = mkSizes (innerWidth w) (innerHeight w) /\
    PerspectiveCamera.aspect (camera s') = innerWidth w / innerHeight w /\
    PerspectiveCamera.projectionMatrix (camera s') =
      PerspectiveCamera.frustumOf
        (PerspectiveCamera.fov (camera s')) (PerspectiveCamera.aspect (camera s'))
        (PerspectiveCamera.near (camera s')) (PerspectiveCamera.far (camera s')) /\
    PerspectiveCamera.fov (camera s') = PerspectiveCamera.fov (camera s) /\
    PerspectiveCamera.near (camera s') = PerspectiveCamera.near (camera s) /\
    PerspectiveCamera.far (camera s') = PerspectiveCamera.far (camera s) /\
    WebGLRenderer.getSize (renderer s') = (innerWidth w, innerHeight w) /\
    WebGLRenderer.pixelRatio (renderer s') = Rmin (devicePixelRatio w) 2 /\
    WebGLRenderer.pixelRatio (renderer s') <= 2 /\
    WebGLRenderer.pixelRatio (renderer s') <= devicePixelRatio w.
Proof.
  intros w s. eexists. split; [reflexivity|]. simpl.
  repeat split; try reflexivity.
  - apply Rmin_r.
  - apply Rmin_l.
Qed.

(** ** The render loop *)

Lemma floatOffset_bounds (t : R) : - 0.1 <= floatOffset t <= 0.1.
Proof.
  unfold floatOffset. pose proof (SIN_bound (t * 0.001)). lra.
Qed.

Lemma floatOffset_period (t : R) :
  floatOffset (t + 2 * PI / 0.001) = floatOffset t.
Proof.
  unfold floatOffset. f_equal.
  replace ((t + 2 * PI / 0.001) * 0.001) with (t * 0.001 + 2 * PI)
    by (field; lra).
  rewrite sin_plus, sin_2PI, cos_2PI. lra.
Qed.

Lemma floatOffset_peak : floatOffset (PI / 2 / 0.001) = 0.1.
Proof.
  unfold floatOffset.
  replace (PI / 2 / 0.001 * 0.001) with (PI / 2) by (field; lra).
  rewrite sin_PI2. lra.
Qed.

Lemma sceneObjects_In (os : list Object3D) (cs : list Child) (id : ObjId) (o : Object3D) :
  In (ObjectNode id) cs -> nth_error os id = Some o -> In o (sceneObjects os cs).
Proof.
  intros Hin Ho. induction cs as [|c cs IH]; simpl in *; [contradiction|].
  destruct Hin as [->|Hin].
  - rewrite Ho. left; reflexivity.
  - destruct c as [| |k]; auto.
    destruct (nth_error os k); [right|]; auto.
Qed.

(** C6.  In every state the page can reach, a call of [animate] at clock [t]
    returns (it never throws), requests the next frame, and ends with one
    render of the scene through the camera.  If [model] is [null] nothing in
    the store is touched.  If [model] refers to an object, that object's [y]
    becomes [sin (t * 0.001) * 0.1] before the render, its [x], [z] and
    everything else about it staying as they were, so the frame drawn shows
    it there, and no other object changes.  The offset has amplitude
    0.1 (it stays in [-0.1, 0.1] and reaches 0.1) and period
    [2 * PI / 0.001].  Each frame event runs [animate] once. *)
Theorem animate_floats_then_renders :
  forall (w : Window) (d : Document) (now : Z) (es : list Event),
  exists s,
    page w d now es = Ok s /\
    (forall t : Z, exists s',
        animate t s = Ok s' /\
        frameCallbacks s' = frameCallbacks s ++ [Animate] /\
        scene s' = scene s /\ camera s' = camera s /\ model s' = model s /\
        WebGLRenderer.frames (renderer s') =
          WebGLRenderer.frames (renderer s) ++
          [WebGLRenderer.mkRendered (sceneObjects (objects s') (scene s))
             (PerspectiveCamera.projectionMatrix (camera s))] /\
        match model s with
        | None => objects s' = objects s
        | Some id =>
            exists o o',
              nth_error (objects s) id = Some o /\
              nth_error (objects s') id = Some o' /\
              Vector3.y (position o') = sin (IZR t * 0.001) * 0.1 /\
              - 0.1 <= Vector3.y (position o') <= 0.1 /\
              Vector3.x (position o') = Vector3.x (position o) /\
              Vector3.z (position o') = Vector3.z (position o) /\
              rotation o' = rotation o /\
              geometry o' = geometry o /\
              material o' = material o /\
              (forall k, k <> id -> nth_error (objects s') k = nth_error (objects s) k) /\
              In o' (sceneObjects (objects s') (scene s))
        end /\
        exists s'',
          dispatch (AnimationFrame t) s = Ok s'' /\
          objects s'' = objects s' /\
          WebGLRenderer.frames (renderer s'') = WebGLRenderer.frames (renderer s')) /\
    (forall x : R, floatOffset x = sin (x * 0.001) * 0.1) /\
    (forall x : R, - 0.1 <= floatOffset x <= 0.1) /\
    floatOffset (PI / 2 / 0.001) = 0.1 /\
    (forall x : R, floatOffset (x + 2 * PI / 0.001) = floatOffset x).
Proof.
  intros w d now es.
  destruct (page_reachable w d now es) as (s & H & HI & _).
  exists s. split; [exact H|].
  split; [|split; [reflexivity|split; [apply floatOffset_bounds|
           split; [apply floatOffset_peak | apply floatOffset_period]]]].
  pose proof HI as [Hd Hm Hq Hr Ht Hmed].
  intros t. eexists. split.
  { apply animate_result. intros id Hid. apply Hm, Hid. }
  split; [frame_simpl; reflexivity|].
  split; [frame_simpl; reflexivity|].
  split; [frame_simpl; reflexivity|].
  split; [frame_simpl; reflexivity|].
  split; [frame_simpl; reflexivity|].
  split.
  - destruct (model s) as [id|] eqn:Em.
    + destruct (Hm id eq_refl) as [Hlt Hin].
      destruct (nth_error (objects s) id) as [o|] eqn:Eo;
        [|apply nth_error_None in Eo; lia].
      assert (Eobj : objects (render (floatModel t (requestAnimationFrame s Animate)))
                     = replace (objects s) id (floated t o)).
      { unfold floatModel; simpl. rewrite Em, Eo. reflexivity. }
      exists o, (floated t o). rewrite Eobj. split; [reflexivity|].
      split; [apply nth_error_replace_same, Hlt|].
      split; [reflexivity|].
      split; [simpl; apply floatOffset_bounds|].
      split; [reflexivity|]. split; [reflexivity|].
      split; [reflexivity|]. split; [reflexivity|]. split; [reflexivity|].
      split; [intros k Hk; apply nth_error_replace_other, Hk|].
      apply (sceneObjects_In _ _ id); [exact Hin|].
      apply nth_error_replace_same, Hlt.
    + unfold floatModel; simpl. rewrite Em. reflexivity.
  - exists (afterFrame t s). split; [apply (frame_result d), HI|].
    unfold afterFrame.
    assert (Eo : objects (floatModel t (requestAnimationFrame (set_frameCallbacks s []) Animate))
                 = objects (floatModel t (requestAnimationFrame s Animate))).
    { unfold floatModel; simpl. destruct (model s); [|reflexivity].
      destruct (nth_error (objects s) o); reflexivity. }
    destruct Hq as [[Hc Ha]|[Hc [Ha Hne]]]; rewrite Hc.
    + destruct (model s) as [id|]; simpl; rewrite Eo; frame_simpl; auto.
    + simpl; rewrite Eo; frame_simpl; auto.
Qed.

(** C8.  The hero timeline, as the script builds it and as every state of
    the page holds it: four tweens, each inserted at the label ["start"],
    which is the timeline's only label and stands at time 0, so all four
    start together.  Two move along [x] in opposite directions (to
    ["-150%"] and to ["150%"]) and fade to opacity 0, one scales up (to 15)
    and fades to opacity 0, one moves along [y] (to 100) and fades to
    opacity 0.  The timeline's trigger pins [.hero] and scrubs with
    smoothing 1. *)
Theorem hero_timeline_four_segments_one_label :
  forall (w : Window) (d : Document) (now : Z) (es : list Event),
  exists s,
    page w d now es = Ok s /\
    tl s =
      Gsap.to (Gsap.to (Gsap.to (Gsap.to (Gsap.timeline (Some (heroTrigger true)))
                                         line1 "start")
                                line3 "start")
                       line2 "start")
              heroInfoOut "start" /\
    map snd (Gsap.children (tl s)) = [line1; line3; line2; heroInfoOut] /\
    List.length (Gsap.children (tl s)) = 4%nat /\
    Gsap.labels (tl s) = [("start"%string, 0)] /\
    (forall c, In c (Gsap.children (tl s)) ->
       Gsap.labelTime "start" (Gsap.labels (tl s)) = Some (fst c)) /\
    (forall c c', In c (Gsap.children (tl s)) -> In c' (Gsap.children (tl s)) ->
       fst c = fst c') /\
    (forall c, In c (Gsap.children (tl s)) -> Gsap.direction (snd c) = Gsap.To) /\
    (Gsap.target line1 = Gsap.Selector ".line-1" /\
     Gsap.props line1 = [("x"%string, Gsap.Text "-150%"); ("opacity"%string, Gsap.Num 0)]) /\
    (Gsap.target line3 = Gsap.Selector ".line-3" /\
     Gsap.props line3 = [("x"%string, Gsap.Text "150%"); ("opacity"%string, Gsap.Num 0)]) /\
    (Gsap.target line2 = Gsap.Selector ".line-2" /\
     Gsap.props line2 = [("scale"%string, Gsap.Num 15); ("opacity"%string, Gsap.Num 0)]) /\
    (Gsap.target heroInfoOut = Gsap.Selector ".hero-info" /\
     Gsap.props heroInfoOut = [("y"%string, Gsap.Num 100); ("opacity"%string, Gsap.Num 0)]) /\
    Gsap.tlScrollTrigger (tl s) =
      Some (Gsap.mkScrollTrigger (Gsap.Selector ".hero") "top top"
              (Some "+=150%"%string) (Some 1) true).
Proof.
  intros w d now es.
  destruct (page_reachable w d now es) as (s & H & HI & _).
  exists s. split; [exact H|].
  rewrite (inv_tl d s HI).
  split; [reflexivity|].
  rewrite heroTimeline_unfolded. simpl.
  split; [reflexivity|]. split; [reflexivity|]. split; [reflexivity|].
  split.
  { intros c [<-|[<-|[<-|[<-|[]]]]]; reflexivity. }
  split.
  { intros c c' [<-|[<-|[<-|[<-|[]]]]] [<-|[<-|[<-|[<-|[]]]]]; reflexivity. }
  split.
  { intros c [<-|[<-|[<-|[<-|[]]]]]; reflexivity. }
  repeat split.
Qed.

(** ** The pointer listener *)

Lemma existsb_eqb_In (n : nat) (l : list nat) :
  In n l -> existsb (Nat.eqb n) l = true.
Proof.
  intros H. apply existsb_exists. exists n. split; [exact H | apply Nat.eqb_refl].
Qed.

(** C9.  A pointer move over a card, with the pointer at
    [(clientX, clientY)] and the card's box at [rect], sets the card's
    [--x] to [clientX - rect.left] pixels and its [--y] to
    [clientY - rect.top] pixels, and touches no other card; with the pointer
    50 to the right of and 30 below the card's top-left corner the two are
    [50px] and [30px]. *)
Theorem mousemove_publishes_pointer_offset :
  forall (s : State) (card : nat) (clientX clientY : R) (rect : DOMRect),
    In card (hCards (document s)) ->
    exists s',
      dispatch (MouseMoved card clientX clientY rect) s = Ok s' /\
      style s' card "--x" = Some (px (clientX - left rect)) /\
      style s' card "--y" = Some (px (clientY - top rect)) /\
      (forall v, unit (px v) = "px"%string /\ magnitude (px v) = v) /\
      (forall other name, other <> card -> style s' other name = style s other name) /\
      (clientX - left rect = 50 -> clientY - top rect = 30 ->
       style s' card "--x" = Some (px 50) /\ style s' card "--y" = Some (px 30)).
Proof.
  intros s card cx cy rect Hin.
  eexists. split.
  { simpl. rewrite (existsb_eqb_In _ _ Hin). reflexivity. }
  assert (Hx : forall s0 : State,
             style (setProperty (setProperty s0 card "--x" (px (cx - left rect)))
                                card "--y" (px (cy - top rect))) card "--x"
             = Some (px (cx - left rect))).
  { intros s0. simpl. rewrite Nat.eqb_refl. reflexivity. }
  assert (Hy : forall s0 : State,
             style (setProperty (setProperty s0 card "--x" (px (cx - left rect)))
                                card "--y" (px (cy - top rect))) card "--y"
             = Some (px (cy - top rect))).
  { intros s0. simpl. rewrite Nat.eqb_refl. reflexivity. }
  split; [apply Hx|]. split; [apply Hy|].
  split; [intros v; split; reflexivity|].
  split.
  { intros other name Hne. simpl.
    destruct (Nat.eqb_neq other card) as [_ Hf]. rewrite (Hf Hne). reflexivity. }
  intros H50 H30. rewrite <- H50, <- H30. split; [apply Hx | apply Hy].
Qed.

Lemma mousemove_publishes_pointer_offset_witness :
  exists s',
    dispatch (MouseMoved 7 150 230 (mkDOMRect 100 200))
             (setup desk oneCard) = Ok s' /\
    style s' 7%nat "--x" = Some (px 50) /\
    style s' 7%nat "--y" = Some (px 30).
Proof.
  destruct (mousemove_publishes_pointer_offset
              (setup desk oneCard)
              7%nat 150 230 (mkDOMRect 100 200))
    as (s' & Hd & _ & _ & _ & _ & Hpx).
  - simpl. left. reflexivity.
  - exists s'. split; [exact Hd|]. apply Hpx; simpl; lra.
Defined.

(** ** The horizontal section *)

Lemma dispatch_window (d : Document) (e : Event) (s s' : State) :
  Inv d s -> dispatch e s = Ok s' ->
  window s' = match e with Resized w' => w' | _ => window s end.
Proof.
  intros HI H. destruct e as [g|l t|err|w'|now|card cx cy rect].
  - simpl in H. rewrite onLoad_result in H. injection H as <-. reflexivity.
  - injection H as <-. reflexivity.
  - simpl in H. rewrite onError_result in H. injection H as <-. reflexivity.
  - rewrite resized_result in H. injection H as <-. reflexivity.
  - rewrite (frame_result d now s HI) in H. injection H as <-.
    unfold afterFrame.
    destruct (frameCallbacks s) as [|[] [|[] [|? ?]]]; try (frame_simpl; reflexivity).
    destruct (model s); frame_simpl; reflexivity.
  - simpl in H. destruct (existsb (Nat.eqb card) (hCards (document s)));
      injection H as <-; reflexivity.
Qed.

Lemma run_window (d : Document) (es : list Event) :
  forall s s', Inv d s -> run es s = Ok s' -> window s' = lastWindow (window s) es.
Proof.
  induction es as [|e es IH]; intros s s' HI H.
  - injection H as <-. reflexivity.
  - destruct (Inv_dispatch d e s HI) as (s1 & H1 & HI1 & _).
    simpl in H. rewrite H1 in H. simpl in H.
    rewrite (IH s1 s' HI1 H). unfold lastWindow. simpl.
    rewrite (dispatch_window d e s s1 HI H1). reflexivity.
Qed.

Lemma matches_MinWidth (px vw : R) :
  Gsap.matches (Gsap.MinWidth px) vw = true <-> px <= vw.
Proof.
  simpl. destruct (Rle_dec px vw); split; auto; discriminate.
Qed.

Lemma matches_MaxWidth (px vw : R) :
  Gsap.matches (Gsap.MaxWidth px) vw = true <-> vw <= px.
Proof.
  simpl. destruct (Rle_dec vw px); split; auto; discriminate.
Qed.

Lemma not_matches (q : Gsap.MediaQuery) (vw : R) :
  Gsap.matches q vw <> true -> Gsap.matches q vw = false.
Proof. destruct (Gsap.matches q vw); congruence. Qed.

(** The media tweens of any state of the page, from the last window width. *)
Lemma page_mediaTweens (w : Window) (d : Document) (now : Z) (es : list Event) :
  exists s,
    page w d now es = Ok s /\
    mediaTweens s =
      (if Gsap.matches (Gsap.MinWidth 1024) (viewportWidth (lastWindow w es))
       then desktop d else []) ++
      (if Gsap.matches (Gsap.MaxWidth 1023) (viewportWidth (lastWindow w es))
       then mobile d else []).
Proof.
  destruct (main_inv w d now) as (s0 & H0 & HI0 & _ & Hw0).
  destruct (Inv_run d es s0 HI0) as (s & H & HI & _).
  exists s. split; [unfold page; rewrite H0; exact H|].
  unfold mediaTweens. rewrite (inv_media d s HI).
  rewrite (run_window d es s0 s HI0 H), Hw0.
  unfold matchMedia, mediaQueries. simpl.
  rewrite app_nil_r. reflexivity.
Qed.

(** At 1200px with no [.horizontal-wrapper] in the document nothing scrolls
    horizontally; and at 1023.2px, between the two queries, neither function
    runs although there are cards. *)
Lemma media_branches_can_both_be_absent :
  (exists s,
      page desk markupWithoutWrapper 0 []
      = Ok s /\
      1024 <= viewportWidth (window s) /\
      mediaTweens s = []) /\
  (exists s,
      page zoomed markup 0 []
      = Ok s /\
      viewportWidth (window s) < 1024 /\
      hCards (document s) = [2%nat; 3%nat] /\
      mediaTweens s = []).
Proof.
  split.
  - eexists. split; [reflexivity|]. split; [simpl; lra|].
    unfold mediaTweens; simpl.
    destruct (Rle_dec 1024 1200), (Rle_dec 1200 1023); try lra. reflexivity.
  - eexists. split; [reflexivity|]. split; [simpl; lra|]. split; [reflexivity|].
    unfold mediaTweens; simpl.
    destruct (Rle_dec 1024 (5116 / 5)), (Rle_dec (5116 / 5) 1023); try lra.
    reflexivity.
Qed.

(** C7, as the script has it.  With [vw] the viewport width after the last
    resize: if [vw] is at least 1024 and the document has both
    [.horizontal-wrapper] and [.horizontal-section], the one live media tween
    moves the wrapper to [x = "-250vw"] without easing, scrubbed (smoothing 1)
    over a pinned trigger on the section that lasts ["+=3000"], and no card
    reveal is live; if [vw] is at most 1023, the live media tweens are one
    reveal per card, in order (from [y = 50] and opacity 0, over 0.8, when
    the card's top reaches 85% of the viewport), and no horizontal scroll is
    live. *)
Theorem horizontal_scroll_or_card_reveals :
  forall (w : Window) (d : Document) (now : Z) (es : list Event),
  exists s,
    page w d now es = Ok s /\
    window s = lastWindow w es /\
    (1024 <= viewportWidth (window s) ->
     forall wr sec, wrapper d = Some wr -> horizontalSection d = Some sec ->
       mediaTweens s = [horizontalScroll wr sec]) /\
    (1024 <= viewportWidth (window s) ->
     forall card, In (cardReveal card) (mediaTweens s) -> False) /\
    (viewportWidth (window s) <= 1023 ->
     mediaTweens s = map cardReveal (hCards d)) /\
    (viewportWidth (window s) <= 1023 ->
     forall wr sec, In (horizontalScroll wr sec) (mediaTweens s) -> False) /\
    (forall wr sec,
       horizontalScroll wr sec =
       Gsap.mkTween Gsap.To (Gsap.Node wr) [("x"%string, Gsap.Text "-250vw")]
         None None (Some "none"%string) None
         (Some (Gsap.mkScrollTrigger (Gsap.Node sec) "top top"
                  (Some "+=3000"%string) (Some 1) true))) /\
    (forall card,
       cardReveal card =
       Gsap.mkTween Gsap.From (Gsap.Node card)
         [("y"%string, Gsap.Num 50); ("opacity"%string, Gsap.Num 0)]
         (Some 0.8) None None None
         (Some (Gsap.mkScrollTrigger (Gsap.Node card) "top 85%" None None false))).
Proof.
  intros w d now es.
  destruct (page_mediaTweens w d now es) as (s & H & Hmt).
  exists s. split; [exact H|].
  assert (Hw : window s = lastWindow w es).
  { destruct (main_inv w d now) as (s0 & H0 & HI0 & _ & Hw0).
    unfold page in H. rewrite H0 in H. simpl in H.
    rewrite (run_window d es s0 s HI0 H), Hw0. reflexivity. }
  split; [exact Hw|]. rewrite Hw.
  set (vw := viewportWidth (lastWindow w es)) in *.
  split.
  { intros Hge wr sec Ewr Esec. rewrite Hmt.
    rewrite (proj2 (matches_MinWidth 1024 vw) Hge).
    rewrite (not_matches (Gsap.MaxWidth 1023) vw).
    - unfold desktop. rewrite Ewr, Esec. reflexivity.
    - intros C. apply matches_MaxWidth in C. lra. }
  split.
  { intros Hge card Hin. rewrite Hmt in Hin.
    rewrite (not_matches (Gsap.MaxWidth 1023) vw) in Hin.
    - rewrite app_nil_r in Hin.
      destruct (Gsap.matches (Gsap.MinWidth 1024) vw); [|exact Hin].
      unfold desktop in Hin.
      destruct (wrapper d), (horizontalSection d); simpl in Hin; try contradiction.
      destruct Hin as [C|[]]. discriminate C.
    - intros C. apply matches_MaxWidth in C. lra. }
  split.
  { intros Hle. rewrite Hmt.
    rewrite (proj2 (matches_MaxWidth 1023 vw) Hle).
    rewrite (not_matches (Gsap.MinWidth 1024) vw).
    - reflexivity.
    - intros C. apply matches_MinWidth in C. lra. }
  split.
  { intros Hle wr sec Hin. rewrite Hmt in Hin.
    rewrite (not_matches (Gsap.MinWidth 1024) vw) in Hin.
    - rewrite app_nil_l in Hin.
      destruct (Gsap.matches (Gsap.MaxWidth 1023) vw); [|exact Hin].
      unfold mobile in Hin. apply in_map_iff in Hin as (c & C & _). discriminate C.
    - intros C. apply matches_MinWidth in C. lra. }
  split; reflexivity.
Qed.

(** ** Floating against centring *)

Lemma afterFrame_objects (now : Z) (s : State) :
  objects (afterFrame now s) = objects (floatModel now s).
Proof.
  assert (E : objects (floatModel now
                         (requestAnimationFrame (set_frameCallbacks s []) Animate))
              = objects (floatModel now s)).
  { unfold floatModel; simpl. destruct (model s) as [id|]; [|reflexivity].
    destruct (nth_error (objects s) id); reflexivity. }
  unfold afterFrame.
  destruct (frameCallbacks s) as [|[] [|[] [|? ?]]]; simpl; try exact E.
  destruct (model s); simpl; exact E.
Qed.

Lemma frame_modelObject (d : Document) (now : Z) (s : State) (o : Object3D) :
  Inv d s -> modelObject s = Some o ->
  modelObject (afterFrame now s) = Some (floated now o).
Proof.
  intros HI Ho. unfold modelObject in *.
  rewrite afterFrame_model, afterFrame_objects.
  destruct (model s) as [id|] eqn:Em; [|discriminate Ho].
  unfold floatModel. rewrite Em, Ho. simpl.
  apply nth_error_replace_same. apply (inv_model d s HI id Em).
Qed.

Lemma sameButY_refl (o : Object3D) : sameButY o o.
Proof. repeat split. Qed.

Lemma sameButY_trans (a b c : Object3D) : sameButY a b -> sameButY b c -> sameButY a c.
Proof.
  intros (H1 & H2 & H3 & H4 & H5) (K1 & K2 & K3 & K4 & K5).
  repeat split; congruence.
Qed.

Lemma quiet_dispatch_modelObject (d : Document) (e : Event) (s : State) (o : Object3D) :
  Inv d s -> terminal e = false -> modelObject s = Some o ->
  exists s' o',
    dispatch e s = Ok s' /\ Inv d s' /\ modelObject s' = Some o' /\ sameButY o o'.
Proof.
  intros HI He Ho. destruct e as [g|l t|err|w'|now|card cx cy rect];
    try discriminate He.
  - destruct (Inv_progress d l t s HI) as (s' & H1 & H2 & _).
    exists s', o. split; [exact H1|]. split; [exact H2|].
    injection H1 as <-. split; [exact Ho | apply sameButY_refl].
  - destruct (Inv_resized d w' s HI) as (s' & H1 & H2 & _).
    exists s', o. split; [exact H1|]. split; [exact H2|].
    rewrite resized_result in H1. injection H1 as <-.
    split; [exact Ho | apply sameButY_refl].
  - destruct (Inv_frame d now s HI) as (s' & H1 & H2 & _).
    exists s', (floated now o). split; [exact H1|]. split; [exact H2|].
    rewrite (frame_result d now s HI) in H1. injection H1 as <-.
    split; [apply (frame_modelObject d), Ho; exact HI | repeat split].
  - destruct (Inv_mouse d card cx cy rect s HI) as (s' & H1 & H2 & _).
    exists s', o. split; [exact H1|]. split; [exact H2|].
    simpl in H1. destruct (existsb (Nat.eqb card) (hCards (document s)));
      injection H1 as <-; (split; [exact Ho | apply sameButY_refl]).
Qed.

Lemma quiet_run_modelObject (d : Document) (es : list Event) :
  forall (s : State) (o : Object3D),
    Inv d s -> quiet es = true -> modelObject s = Some o ->
    exists s' o',
      run es s = Ok s' /\ Inv d s' /\ modelObject s' = Some o' /\ sameButY o o'.
Proof.
  induction es as [|e es IH]; intros s o HI Hq Ho.
  - exists s, o. split; [reflexivity|]. split; [exact HI|].
    split; [exact Ho | apply sameButY_refl].
  - simpl in Hq. apply andb_prop in Hq as [Hq1 Hq2].
    assert (He : terminal e = false) by (destruct (terminal e); [discriminate | reflexivity]).
    destruct (quiet_dispatch_modelObject d e s o HI He Ho) as (s1 & o1 & H1 & HI1 & Ho1 & S1).
    destruct (IH s1 o1 HI1 Hq2 Ho1) as (s2 & o2 & H2 & HI2 & Ho2 & S2).
    exists s2, o2. simpl. rewrite H1. simpl.
    split; [exact H2|]. split; [exact HI2|].
    split; [exact Ho2 | exact (sameButY_trans _ _ _ S1 S2)].
Qed.

(** The asset after [Loaded g], any events without a terminal outcome, and a
    frame at clock [t]: centred in [x] and [z], at the float offset in [y]. *)
Lemma loaded_then_frame (w : Window) (d : Document) (now : Z)
      (es : list Event) (g : Object3D) (post : list Event) (t : Z) :
  quiet post = true ->
  exists s,
    page w d now (es ++ [Loaded g] ++ post ++ [AnimationFrame t]) = Ok s /\
    modelObject s =
      Some (withPosition g
              (Vector3.setY (Vector3.sub (position g) (Box3.getCenter (setFromObject g)))
                            (floatOffset (IZR t)))).
Proof.
  intros Hq.
  destruct (page_reachable w d now es) as (s0 & H0 & HI0 & _).
  destruct (terminal_sets_model d (Loaded g) s0 HI0 eq_refl)
    as (s1 & H1 & HI1 & Hm1 & Ho1).
  assert (Hmo1 : modelObject s1 = stored (Loaded g)).
  { unfold modelObject. rewrite Hm1. exact Ho1. }
  destruct (quiet_run_modelObject d post s1 _ HI1 Hq Hmo1)
    as (s2 & o2 & H2 & HI2 & Ho2 & (S1 & S2 & S3 & S4 & S5)).
  exists (afterFrame t s2). split.
  - rewrite page_app, H0. cbn [bind].
    change ([Loaded g] ++ post ++ [AnimationFrame t])
      with (Loaded g :: (post ++ [AnimationFrame t])).
    cbn [run]. rewrite H1. cbn [bind].
    rewrite run_app, H2. cbn [bind run].
    rewrite (frame_result d t s2 HI2). reflexivity.
  - rewrite (frame_modelObject d t s2 o2 HI2 Ho2).
    f_equal. unfold floated, withPosition, Vector3.setY.
    destruct o2 as [p2 r2 g2 m2], g as [pg rg gg mg]; simpl in *.
    subst. rewrite S4, S5. reflexivity.
Qed.

Lemma moved_box_centre (o : Object3D) (p : Vector3.t) :
  Box3.isEmpty (setFromObject o) = false ->
  Box3.getCenter (setFromObject (withPosition o p)) =
  Vector3.addVectors p
    (Vector3.sub (Box3.getCenter (setFromObject o)) (position o)).
Proof.
  rewrite !setFromObject_shifted. simpl.
  destruct (Box3.setFromPoints (vertices (geometry o))) as [[lo hi]|]; simpl;
    [|discriminate].
  intros _. apply Vector3_eq; simpl; lra.
Qed.

Lemma raisedAsset_box :
  setFromObject raisedAsset = Some (Vector3.make 0 1 0, Vector3.make 0 3 0).
Proof.
  unfold setFromObject, Box3.setFromPoints; simpl.
  unfold Vector3.min, Vector3.max, Vector3.addVectors; simpl.
  unfold Rmin, Rmax.
  repeat match goal with
         | |- context [Rle_dec ?a ?b] => destruct (Rle_dec a b); try lra
         end.
  do 2 f_equal; apply Vector3_eq; simpl; lra.
Qed.

(** For the asset [raisedAsset], whose box is centred at height 2: after the
    load and one frame (at clock 1730505600000) the model sits at the float
    offset, while the centre of its box is 2 above the float offset; so the
    centre of the box is not at the float offset. *)
Lemma box_centre_is_not_the_float_offset :
  exists s o,
    page desk markup 1730505500000
         [Loaded raisedAsset; AnimationFrame 1730505600000] = Ok s /\
    modelObject s = Some o /\
    Vector3.y (Box3.getCenter (setFromObject raisedAsset)) = 2 /\
    Vector3.y (position o) = floatOffset (IZR 1730505600000) /\
    Vector3.y (Box3.getCenter (setFromObject o)) = floatOffset (IZR 1730505600000) + 2 /\
    Vector3.y (Box3.getCenter (setFromObject o)) <> floatOffset (IZR 1730505600000).
Proof.
  destruct (loaded_then_frame desk markup 1730505500000 [] raisedAsset []
              1730505600000 eq_refl) as (s & H & Ho).
  exists s. eexists. split; [exact H|]. split; [exact Ho|].
  assert (Hc : Vector3.y (Box3.getCenter (setFromObject raisedAsset)) = 2).
  { rewrite raisedAsset_box. simpl. lra. }
  assert (Hb : Vector3.y (Box3.getCenter (setFromObject
                 (withPosition raisedAsset
                    (Vector3.setY
                       (Vector3.sub (position raisedAsset)
                          (Box3.getCenter (setFromObject raisedAsset)))
                       (floatOffset (IZR 1730505600000))))))
               = floatOffset (IZR 1730505600000) + 2).
  { rewrite moved_box_centre by (rewrite raisedAsset_box; reflexivity).
    rewrite raisedAsset_box. simpl. lra. }
  split; [exact Hc|]. split; [reflexivity|].
  split; [exact Hb|]. rewrite Hb. lra.
Qed.

Lemma terminal_then_frame (w : Window) (d : Document) (now : Z)
      (es : list Event) (e : Event) (post : list Event) (t : Z) :
  terminal e = true -> quiet post = true ->
  exists s o0 o,
    page w d now (es ++ [e] ++ post ++ [AnimationFrame t]) = Ok s /\
    stored e = Some o0 /\
    modelObject s = Some o /\
    Vector3.x (position o) = Vector3.x (position o0) /\
    Vector3.z (position o) = Vector3.z (position o0) /\
    Vector3.y (position o) = floatOffset (IZR t).
Proof.
  intros He Hq.
  destruct (page_reachable w d now es) as (s0 & H0 & HI0 & _).
  destruct (terminal_sets_model d e s0 HI0 He) as (s1 & H1 & HI1 & Hm1 & Ho1).
  destruct (stored e) as [o0|] eqn:Es; [|destruct e; discriminate].
  assert (Hmo1 : modelObject s1 = Some o0).
  { unfold modelObject. rewrite Hm1. exact Ho1. }
  destruct (quiet_run_modelObject d post s1 o0 HI1 Hq Hmo1)
    as (s2 & o2 & H2 & HI2 & Ho2 & (_ & _ & _ & S4 & S5)).
  exists (afterFrame t s2), o0, (floated t o2).
  split.
  { rewrite page_app, H0. cbn [bind].
    change ([e] ++ post ++ [AnimationFrame t])
      with (e :: (post ++ [AnimationFrame t])).
    cbn [run]. rewrite H1. cbn [bind].
    rewrite run_app, H2. cbn [bind run].
    rewrite (frame_result d t s2 HI2). reflexivity. }
  split; [reflexivity|].
  split; [apply (frame_modelObject d t s2 o2 HI2 Ho2)|].
  split; [exact S4|]. split; [exact S5 | reflexivity].
Qed.

Lemma placed_box_centre (p : Vector3.t) (turn : Euler.t) (kind : string)
      (vs : list Vector3.t) (m : option MeshStandardMaterial) :
  Box3.isEmpty (Box3.setFromPoints vs) = false ->
  Box3.getCenter (setFromObject (mkObject3D p turn (mkGeometry kind vs) m)) =
  Vector3.addVectors p (Box3.getCenter (Box3.setFromPoints vs)).
Proof.
  rewrite setFromObject_shifted. simpl.
  destruct (Box3.setFromPoints vs) as [[lo hi]|]; simpl; [|discriminate].
  intros _. apply Vector3_eq; simpl; lra.
Qed.

(** C10, as the script has it.  Once a terminal outcome [e] has set [model]
    and a frame has run at clock [t] (whatever else happened in between,
    short of another terminal outcome), the object [model] refers to sits
    where the callback put it in [x] and [z] and at the float offset
    [sin (t * 0.001) * 0.1], within [-0.1, 0.1], in [y].  For a loaded asset
    [g] that is the centred [x] and [z], while the [y] that the centring
    gave it is gone.  So the centre of the object's box is then its vertices'
    centre moved to that position: in [y], the float offset plus the height
    of the centre of its vertices, whatever vertices [vs] (taken around its
    position) the rotation tweens have turned it to by then. *)
Theorem float_overwrites_centred_height :
  forall (w : Window) (d : Document) (now : Z)
         (es : list Event) (e : Event) (post : list Event) (t : Z),
    terminal e = true -> quiet post = true ->
    exists s o0 o,
      page w d now (es ++ [e] ++ post ++ [AnimationFrame t]) = Ok s /\
      stored e = Some o0 /\
      modelObject s = Some o /\
      Vector3.y (position o) = sin (IZR t * 0.001) * 0.1 /\
      - 0.1 <= Vector3.y (position o) <= 0.1 /\
      Vector3.x (position o) = Vector3.x (position o0) /\
      Vector3.z (position o) = Vector3.z (position o0) /\
      (forall g, e = Loaded g ->
         Vector3.x (position o) =
           Vector3.x (position g) - Vector3.x (Box3.getCenter (setFromObject g)) /\
         Vector3.z (position o) =
           Vector3.z (position g) - Vector3.z (Box3.getCenter (setFromObject g)) /\
         Vector3.y (position o0) =
           Vector3.y (position g) - Vector3.y (Box3.getCenter (setFromObject g))) /\
      (forall (turn : Euler.t) (kind : string) (vs : list Vector3.t)
              (m : option MeshStandardMaterial),
         Box3.isEmpty (Box3.setFromPoints vs) = false ->
         Box3.getCenter
           (setFromObject (mkObject3D (position o) turn (mkGeometry kind vs) m)) =
         Vector3.make
           (Vector3.x (position o) + Vector3.x (Box3.getCenter (Box3.setFromPoints vs)))
           (sin (IZR t * 0.001) * 0.1
            + Vector3.y (Box3.getCenter (Box3.setFromPoints vs)))
           (Vector3.z (position o) + Vector3.z (Box3.getCenter (Box3.setFromPoints vs)))).
Proof.
  intros w d now es e post t He Hq.
  destruct (terminal_then_frame w d now es e post t He Hq)
    as (s & o0 & o & H & Hs & Ho & Hx & Hz & Hy).
  exists s, o0, o.
  split; [exact H|]. split; [exact Hs|]. split; [exact Ho|].
  split; [exact Hy|].
  split; [rewrite Hy; apply floatOffset_bounds|].
  split; [exact Hx|]. split; [exact Hz|].
  split.
  - intros g ->. simpl in Hs. injection Hs as <-.
    rewrite Hx, Hz. simpl. repeat split.
  - intros turn kind vs m Hne.
    rewrite (placed_box_centre _ turn kind vs m Hne).
    apply Vector3_eq; simpl; try reflexivity.
    rewrite Hy. reflexivity.
Qed.

Lemma float_overwrites_centred_height_witness :
  exists s o0 o,
    page desk markup 0
         ([AnimationFrame 16] ++ [Loaded raisedAsset] ++
          [AnimationFrame 32; Resized phone] ++ [AnimationFrame 48]) = Ok s /\
    stored (Loaded raisedAsset) = Some o0 /\
    modelObject s = Some o /\
    Vector3.y (position o) = sin (IZR 48 * 0.001) * 0.1 /\
    - 0.1 <= Vector3.y (position o) <= 0.1 /\
    Vector3.x (position o) = Vector3.x (position o0) /\
    Vector3.z (position o) = Vector3.z (position o0) /\
    (forall g, Loaded raisedAsset = Loaded g ->
       Vector3.x (position o) =
         Vector3.x (position g) - Vector3.x (Box3.getCenter (setFromObject g)) /\
       Vector3.z (position o) =
         Vector3.z (position g) - Vector3.z (Box3.getCenter (setFromObject g)) /\
       Vector3.y (position o0) =
         Vector3.y (position g) - Vector3.y (Box3.getCenter (setFromObject g))) /\
    (forall (turn : Euler.t) (kind : string) (vs : list Vector3.t)
            (m : option MeshStandardMaterial),
       Box3.isEmpty (Box3.setFromPoints vs) = false ->
       Box3.getCenter
         (setFromObject (mkObject3D (position o) turn (mkGeometry kind vs) m)) =
       Vector3.make
         (Vector3.x (position o) + Vector3.x (Box3.getCenter (Box3.setFromPoints vs)))
         (sin (IZR 48 * 0.001) * 0.1
          + Vector3.y (Box3.getCenter (Box3.setFromPoints vs)))
         (Vector3.z (position o) + Vector3.z (Box3.getCenter (Box3.setFromPoints vs)))).
Proof.
  apply (float_overwrites_centred_height
           desk markup 0
           [AnimationFrame 16] (Loaded raisedAsset)
           [AnimationFrame 32; Resized phone] 48);
    reflexivity.
Defined.

(** ** The page as a whole *)

Lemma dispatch_frames (d : Document) (e : Event) (s s' : State) :
  Inv d s -> dispatch e s = Ok s' ->
  List.length (WebGLRenderer.frames (renderer s')) =
  (List.length (WebGLRenderer.frames (renderer s))
   + (if isAnimationFrame e then 1 else 0))%nat.
Proof.
  intros HI H. destruct e as [g|l t|err|w'|now|card cx cy rect]; simpl isAnimationFrame.
  - simpl in H. rewrite onLoad_result in H. injection H as <-. simpl. lia.
  - injection H as <-. simpl. lia.
  - simpl in H. rewrite onError_result in H. injection H as <-. simpl. lia.
  - rewrite resized_result in H. injection H as <-. simpl. lia.
  - rewrite (frame_result d now s HI) in H. injection H as <-.
    unfold afterFrame.
    destruct (frameCallbacks s) as [|[] [|[] [|? ?]]];
      try (frame_simpl; rewrite length_app; reflexivity).
    destruct (model s); frame_simpl; rewrite length_app; reflexivity.
  - simpl in H. destruct (existsb (Nat.eqb card) (hCards (document s)));
      injection H as <-; simpl; lia.
Qed.

Lemma run_frames (d : Document) (es : list Event) :
  forall s s', Inv d s -> run es s = Ok s' ->
  List.length (WebGLRenderer.frames (renderer s')) =
  (List.length (WebGLRenderer.frames (renderer s))
   + List.length (filter isAnimationFrame es))%nat.
Proof.
  induction es as [|e es IH]; intros s s' HI H.
  - injection H as <-. simpl. lia.
  - destruct (Inv_dispatch d e s HI) as (s1 & H1 & HI1 & _).
    simpl in H. rewrite H1 in H. simpl in H.
    rewrite (IH s1 s' HI1 H), (dispatch_frames d e s s1 HI H1). simpl.
    destruct (isAnimationFrame e); simpl; lia.
Qed.

(** X1.  Granted what the script itself takes for granted (every three.js
    and GSAP call returns, and the loader hands the success callback a
    scene), nothing the script wrote throws, whatever the window, the
    document, the clock and the order of events: [animate] writes through
    [model] only behind its test, and a reference it finds there always
    leads to a stored object.  (A write through a null [model] would
    throw.) *)
Theorem page_never_throws :
  (forall (w : Window) (d : Document) (now : Z) (es : list Event),
   exists s, page w d now es = Ok s) /\
  (forall (s : State) (f : Object3D -> Object3D),
   modify s None f = Throw "TypeError: null has no properties").
Proof.
  split.
  - intros w d now es.
    destruct (page_reachable w d now es) as (s & H & _).
    exists s. exact H.
  - intros s f. reflexivity.
Qed.

(** X2.  The render loop keeps itself going: in every state of the page
    exactly one [animate] call waits for the next frame, and the scene has
    been rendered once by the script plus once per frame event. *)
Theorem render_loop_runs_once_per_frame :
  forall (w : Window) (d : Document) (now : Z) (es : list Event),
  exists s,
    page w d now es = Ok s /\
    List.length (filter isAnimate (frameCallbacks s)) = 1%nat /\
    List.length (WebGLRenderer.frames (renderer s)) =
      S (List.length (filter isAnimationFrame es)).
Proof.
  intros w d now es.
  destruct (main_inv w d now) as (s0 & H0 & HI0 & _).
  destruct (Inv_run d es s0 HI0) as (s & H & HI & _).
  exists s. split; [unfold page; rewrite H0; exact H|]. split.
  - destruct (inv_queue d s HI) as [[Hc _]|[Hc _]]; rewrite Hc; reflexivity.
  - rewrite (run_frames d es s0 s HI0 H).
    rewrite main_result in H0. injection H0 as <-. reflexivity.
Qed.

(** ** Every event as a function on states *)

Lemma dispatch_after (d : Document) (e : Event) (s : State) :
  Inv d s -> dispatch e s = Ok (after e s).
Proof.
  intros HI. destruct e as [g|l t|err|w'|now|card cx cy rect].
  - apply onLoad_result.
  - reflexivity.
  - apply onError_result.
  - apply resized_result.
  - apply (frame_result d), HI.
  - unfold after, afterMouse. simpl.
    destruct (existsb (Nat.eqb card) (hCards (document s))); reflexivity.
Qed.

Lemma Inv_after (d : Document) (e : Event) (s : State) :
  Inv d s -> Inv d (after e s).
Proof.
  intros HI. destruct (Inv_dispatch d e s HI) as (s' & H & HI' & _).
  rewrite (dispatch_after d e s HI) in H. injection H as <-. exact HI'.
Qed.

Lemma Inv_afterAll (d : Document) (es : list Event) :
  forall s, Inv d s -> Inv d (afterAll es s).
Proof.
  induction es as [|e es IH]; intros s HI; [exact HI|].
  apply (IH (after e s)), Inv_after, HI.
Qed.

Lemma run_afterAll (d : Document) (es : list Event) :
  forall s, Inv d s -> run es s = Ok (afterAll es s).
Proof.
  induction es as [|e es IH]; intros s HI; [reflexivity|].
  simpl. rewrite (dispatch_after d e s HI). simpl.
  apply IH, Inv_after, HI.
Qed.

Lemma afterAll_app (es1 es2 : list Event) (s : State) :
  afterAll (es1 ++ es2) s = afterAll es2 (afterAll es1 s).
Proof. apply fold_left_app. Qed.

(** The state the script leaves, and the state of the page after a trace. *)
Lemma page_afterAll (w : Window) (d : Document) (now : Z) (es : list Event) :
  exists s0,
    main w d now = Ok s0 /\ Inv d s0 /\ model s0 = None /\ window s0 = w /\
    page w d now es = Ok (afterAll es s0).
Proof.
  destruct (main_inv w d now) as (s0 & H0 & HI0 & Hm0 & Hw0).
  exists s0. repeat (split; [assumption|]).
  unfold page. rewrite H0. simpl. apply (run_afterAll d), HI0.
Qed.

(** What an event leaves alone. *)
Lemma after_window (e : Event) (s : State) :
  window (after e s) = match e with Resized w' => w' | _ => window s end.
Proof.
  destruct e as [g|l t|err|w'|now|card cx cy rect]; try reflexivity.
  - unfold after, afterFrame.
    destruct (frameCallbacks s) as [|[] [|[] [|? ?]]]; try (frame_simpl; reflexivity).
    destruct (model s); frame_simpl; reflexivity.
  - unfold after, afterMouse.
    destruct (existsb (Nat.eqb card) (hCards (document s))); reflexivity.
Qed.

Lemma after_camera (e : Event) (s : State) :
  isAnimationFrame e = true \/ (forall w', e <> Resized w') ->
  camera (after e s) = camera s.
Proof.
  intros H. destruct e as [g|l t|err|w'|now|card cx cy rect]; try reflexivity.
  - destruct H as [H|H]; [discriminate H | elim (H w' eq_refl)].
  - unfold after, afterFrame.
    destruct (frameCallbacks s) as [|[] [|[] [|? ?]]]; try (frame_simpl; reflexivity).
    destruct (model s); frame_simpl; reflexivity.
  - unfold after, afterMouse.
    destruct (existsb (Nat.eqb card) (hCards (document s))); reflexivity.
Qed.

Lemma floatModel_sizes (now : Z) (s : State) : sizes (floatModel now s) = sizes s.
Proof. float_cases; reflexivity. Qed.

Lemma floatModel_style (now : Z) (s : State) : style (floatModel now s) = style s.
Proof. float_cases; reflexivity. Qed.

Lemma floatModel_console (now : Z) (s : State) :
  console (floatModel now s) = console s.
Proof. float_cases; reflexivity. Qed.

#[local] Hint Rewrite floatModel_sizes floatModel_style floatModel_console : frame.

Lemma inSync_same_viewport (s s' : State) :
  window s' = window s -> sizes s' = sizes s -> camera s' = camera s ->
  WebGLRenderer.width (renderer s') = WebGLRenderer.width (renderer s) ->
  WebGLRenderer.height (renderer s') = WebGLRenderer.height (renderer s) ->
  WebGLRenderer.pixelRatio (renderer s') = WebGLRenderer.pixelRatio (renderer s) ->
  WebGLRenderer.alpha (renderer s') = WebGLRenderer.alpha (renderer s) ->
  WebGLRenderer.antialias (renderer s') = WebGLRenderer.antialias (renderer s) ->
  inSync s -> inSync s'.
Proof.
  intros E1 E2 E3 E4 E5 E6 E7 E8. unfold inSync, WebGLRenderer.getSize.
  rewrite E1, E2, E3, E4, E5, E6, E7, E8. exact (fun H => H).
Qed.

Lemma inSync_after (e : Event) (s : State) : inSync s -> inSync (after e s).
Proof.
  intros H.
  destruct e as [g|l t|err|w'|now|card cx cy rect].
  - apply (inSync_same_viewport s); try reflexivity; exact H.
  - apply (inSync_same_viewport s); try reflexivity; exact H.
  - apply (inSync_same_viewport s); try reflexivity; exact H.
  - destruct H as (H1 & H2 & H3 & H4 & H5 & H6 & H7 & H8 & H9 & H10 & H11).
    unfold inSync; simpl. rewrite H4, H5, H6, H7, H10, H11.
    repeat split; reflexivity.
  - unfold after, afterFrame.
    destruct (frameCallbacks s) as [|[] [|[] [|? ?]]];
      try (apply (inSync_same_viewport s); try (frame_simpl; reflexivity); exact H).
    destruct (model s);
      apply (inSync_same_viewport s); try (frame_simpl; reflexivity); exact H.
  - unfold after, afterMouse.
    destruct (existsb (Nat.eqb card) (hCards (document s)));
      apply (inSync_same_viewport s); try reflexivity; exact H.
Qed.

Lemma inSync_afterAll (es : list Event) :
  forall s, inSync s -> inSync (afterAll es s).
Proof.
  induction es as [|e es IH]; intros s H; [exact H|].
  apply (IH (after e s)), inSync_after, H.
Qed.

Lemma afterAll_window (es : list Event) :
  forall s, window (afterAll es s) = lastWindow (window s) es.
Proof.
  induction es as [|e es IH]; intros s; [reflexivity|].
  simpl. rewrite IH, after_window. unfold lastWindow. simpl. reflexivity.
Qed.

Lemma inSync_main (w : Window) (d : Document) (now : Z) (s0 : State) :
  main w d now = Ok s0 -> inSync s0.
Proof.
  rewrite main_result. intros [= <-]. unfold inSync. simpl.
  repeat split; reflexivity.
Qed.

(** X3.  At every moment of a page lifetime the camera and the renderer
    agree with the window as the last resize (or the page load) left it:
    [sizes] and the renderer hold its width and height, the camera's aspect
    is their quotient and its projection matrix is the one for that aspect
    (field of view 75, planes 0.1 and 100), and the pixel ratio is the
    device's capped at 2.  No other event disturbs this. *)
Theorem viewport_always_in_sync :
  forall (w : Window) (d : Document) (now : Z) (es : list Event),
  exists s,
    page w d now es = Ok s /\
    window s = lastWindow w es /\
    sizes s = mkSizes (innerWidth (window s)) (innerHeight (window s)) /\
    PerspectiveCamera.aspect (camera s)
      = innerWidth (window s) / innerHeight (window s) /\
    PerspectiveCamera.projectionMatrix (camera s)
      = PerspectiveCamera.frustumOf 75
          (innerWidth (window s) / innerHeight (window s)) 0.1 100 /\
    WebGLRenderer.getSize (renderer s)
      = (innerWidth (window s), innerHeight (window s)) /\
    WebGLRenderer.pixelRatio (renderer s) = Rmin (devicePixelRatio (window s)) 2 /\
    WebGLRenderer.pixelRatio (renderer s) <= 2.
Proof.
  intros w d now es.
  destruct (page_afterAll w d now es) as (s0 & H0 & HI0 & _ & Hw0 & H).
  exists (afterAll es s0). split; [exact H|].
  split; [rewrite afterAll_window, Hw0; reflexivity|].
  destruct (inSync_afterAll es s0 (inSync_main w d now s0 H0))
    as (H1 & H2 & H3 & _ & _ & _ & _ & H8 & H9 & _).
  repeat (split; [assumption|]).
  rewrite H9. apply Rmin_r.
Qed.

(** X4.  Resizes compose by the last one winning: two resizes in a row
    leave exactly the state the second alone would leave, and a resize to
    the size the window already has changes nothing once it has been
    applied. *)
Theorem resize_last_one_wins :
  forall (w1 w2 : Window) (s : State),
    run [Resized w1; Resized w2] s = run [Resized w2] s /\
    run [Resized w2; Resized w2] s = run [Resized w2] s.
Proof.
  assert (E : forall w1 w2 s, afterResize w2 (afterResize w1 s) = afterResize w2 s).
  { intros w1 w2 s. unfold afterResize. simpl. reflexivity. }
  intros w1 w2 s. cbn [run]. rewrite !resized_result. cbn [bind].
  rewrite !resized_result. cbn [bind]. rewrite !E. split; reflexivity.
Qed.

(** ** The store, the scene and the tweens *)

Lemma floatModel_objects_congr (now : Z) (s s' : State) :
  model s = model s' -> objects s = objects s' ->
  objects (floatModel now s) = objects (floatModel now s').
Proof.
  intros Em Eo. unfold floatModel. rewrite <- Em, <- Eo.
  destruct (model s) as [id|]; [|exact Eo].
  destruct (nth_error (objects s) id); simpl; [reflexivity | exact Eo].
Qed.

Lemma afterFrame_scene (now : Z) (s : State) : scene (afterFrame now s) = scene s.
Proof.
  unfold afterFrame.
  destruct (frameCallbacks s) as [|[] [|[] [|? ?]]]; try (frame_simpl; reflexivity).
  destruct (model s); frame_simpl; reflexivity.
Qed.

Lemma afterFrame_animations (now : Z) (s : State) :
  animations (afterFrame now s) =
  animations s ++
  match frameCallbacks s, model s with
  | [Animate; RotateModel], Some id => [scrollRotation id]
  | _, _ => []
  end.
Proof.
  unfold afterFrame.
  destruct (frameCallbacks s) as [|[] [|[] [|? ?]]];
    try (frame_simpl; rewrite app_nil_r; reflexivity).
  destruct (model s); frame_simpl; [reflexivity | rewrite app_nil_r; reflexivity].
Qed.

Lemma afterFrame_frameCallbacks (now : Z) (s : State) :
  frameCallbacks (afterFrame now s) =
  match frameCallbacks s, model s with
  | [Animate; RotateModel], None => [Animate; RotateModel]
  | _, _ => [Animate]
  end.
Proof.
  unfold afterFrame.
  destruct (frameCallbacks s) as [|[] [|[] [|? ?]]]; try (frame_simpl; reflexivity).
  destruct (model s); frame_simpl; reflexivity.
Qed.

Lemma after_model (e : Event) (s : State) :
  model (after e s) =
  if terminal e then Some (List.length (objects s)) else model s.
Proof.
  destruct e as [g|l t|err|w'|now|card cx cy rect]; try reflexivity.
  - apply afterFrame_model.
  - unfold after, afterMouse.
    destruct (existsb (Nat.eqb card) (hCards (document s))); reflexivity.
Qed.

Lemma after_scene (e : Event) (s : State) :
  scene (after e s) =
  scene s ++ (if terminal e then [ObjectNode (List.length (objects s))] else []).
Proof.
  destruct e as [g|l t|err|w'|now|card cx cy rect]; simpl terminal;
    rewrite ?app_nil_r; try reflexivity.
  - apply afterFrame_scene.
  - unfold after, afterMouse.
    destruct (existsb (Nat.eqb card) (hCards (document s))); reflexivity.
Qed.

Lemma after_objects (e : Event) (s : State) :
  objects (after e s) =
  match e with
  | Loaded g => objects s ++ [centred g]
  | Failed _ => objects s ++ [fallbackMesh]
  | AnimationFrame now => objects (floatModel now s)
  | _ => objects s
  end.
Proof.
  destruct e as [g|l t|err|w'|now|card cx cy rect]; try reflexivity.
  - apply afterFrame_objects.
  - unfold after, afterMouse.
    destruct (existsb (Nat.eqb card) (hCards (document s))); reflexivity.
Qed.

Lemma after_animations (e : Event) (s : State) :
  animations (after e s) =
  animations s ++
  match e with
  | Loaded _ => [idleRotation (List.length (objects s))]
  | AnimationFrame _ =>
      match frameCallbacks s, model s with
      | [Animate; RotateModel], Some id => [scrollRotation id]
      | _, _ => []
      end
  | _ => []
  end.
Proof.
  destruct e as [g|l t|err|w'|now|card cx cy rect];
    try (simpl; rewrite ?app_nil_r; reflexivity).
  - apply afterFrame_animations.
  - unfold after, afterMouse. rewrite app_nil_r.
    destruct (existsb (Nat.eqb card) (hCards (document s))); reflexivity.
Qed.

Lemma after_frameCallbacks (e : Event) (s : State) :
  frameCallbacks (after e s) =
  match e with
  | AnimationFrame _ =>
      match frameCallbacks s, model s with
      | [Animate; RotateModel], None => [Animate; RotateModel]
      | _, _ => [Animate]
      end
  | _ => frameCallbacks s
  end.
Proof.
  destruct e as [g|l t|err|w'|now|card cx cy rect]; try reflexivity.
  - apply afterFrame_frameCallbacks.
  - unfold after, afterMouse.
    destruct (existsb (Nat.eqb card) (hCards (document s))); reflexivity.
Qed.

(** The five fields an event that drives the 3D scene reads and writes. *)
Lemma after_3D_congr (e : Event) (s s' : State) :
  objects s = objects s' -> scene s = scene s' -> model s = model s' ->
  animations s = animations s' -> frameCallbacks s = frameCallbacks s' ->
  objects (after e s) = objects (after e s') /\
  scene (after e s) = scene (after e s') /\
  model (after e s) = model (after e s') /\
  animations (after e s) = animations (after e s') /\
  frameCallbacks (after e s) = frameCallbacks (after e s').
Proof.
  intros Eo Es Em Ea Ef.
  rewrite !after_scene, !after_model, !after_animations, !after_frameCallbacks,
    !after_objects.
  rewrite <- Es, <- Em, <- Ea, <- Ef, <- Eo.
  repeat split.
  destruct e; try reflexivity. apply floatModel_objects_congr; assumption.
Qed.

Lemma after_not_3D (e : Event) (s : State) :
  drives3D e = false ->
  objects (after e s) = objects s /\ scene (after e s) = scene s /\
  model (after e s) = model s /\ animations (after e s) = animations s /\
  frameCallbacks (after e s) = frameCallbacks s.
Proof.
  intros H.
  rewrite after_scene, after_model, after_animations, after_frameCallbacks,
    after_objects.
  destruct e; try discriminate H; simpl; rewrite !app_nil_r; repeat split.
Qed.

Lemma afterAll_3D_filter (es : list Event) :
  forall s s',
    objects s = objects s' -> scene s = scene s' -> model s = model s' ->
    animations s = animations s' -> frameCallbacks s = frameCallbacks s' ->
    objects (afterAll es s) = objects (afterAll (filter drives3D es) s') /\
    scene (afterAll es s) = scene (afterAll (filter drives3D es) s') /\
    model (afterAll es s) = model (afterAll (filter drives3D es) s') /\
    animations (afterAll es s) = animations (afterAll (filter drives3D es) s') /\
    frameCallbacks (afterAll es s) = frameCallbacks (afterAll (filter drives3D es) s').
Proof.
  induction es as [|e es IH]; intros s s' Eo Es Em Ea Ef.
  - simpl. repeat split; assumption.
  - simpl. destruct (drives3D e) eqn:Ed.
    + destruct (after_3D_congr e s s' Eo Es Em Ea Ef) as (A & B & C & D & E).
      simpl. apply IH; assumption.
    + destruct (after_not_3D e s Ed) as (A & B & C & D & E).
      apply IH; congruence.
Qed.

(** X5.  The 3D side of the page (the stored objects, the scene, [model],
    the tweens and the pending frame callbacks) is decided by the loader's
    terminal outcomes and the frames alone: dropping every progress, resize
    and pointer event from a page lifetime leaves all five as they were. *)
Theorem only_loader_and_frames_drive_the_scene :
  forall (w : Window) (d : Document) (now : Z) (es : list Event),
  exists s s',
    page w d now es = Ok s /\
    page w d now (filter drives3D es) = Ok s' /\
    objects s = objects s' /\ scene s = scene s' /\ model s = model s' /\
    animations s = animations s' /\ frameCallbacks s = frameCallbacks s'.
Proof.
  intros w d now es.
  destruct (page_afterAll w d now es) as (s0 & H0 & HI0 & _ & _ & H).
  destruct (page_afterAll w d now (filter drives3D es)) as (s0' & H0' & _ & _ & _ & H').
  assert (s0' = s0) by congruence. subst s0'.
  exists (afterAll es s0), (afterAll (filter drives3D es) s0).
  split; [exact H|]. split; [exact H'|].
  apply afterAll_3D_filter; reflexivity.
Qed.

Lemma after_objects_length (e : Event) (s : State) :
  List.length (objects (after e s)) =
  (List.length (objects s) + (if terminal e then 1 else 0))%nat.
Proof.
  rewrite after_objects.
  destruct e; simpl terminal; rewrite ?length_app, ?floatModel_length; simpl; lia.
Qed.

Lemma sceneObjects_seq (os : list Object3D) :
  forall pre,
    sceneObjects (pre ++ os)
      (map ObjectNode (seq (List.length pre) (List.length os))) = os.
Proof.
  induction os as [|a os IH]; intros pre; [reflexivity|].
  simpl. rewrite nth_error_app2, Nat.sub_diag by lia. simpl. f_equal.
  specialize (IH (pre ++ [a])).
  rewrite <- app_assoc, length_app, Nat.add_1_r in IH. exact IH.
Qed.

Lemma scene_after (e : Event) (s : State) (n : nat) :
  scene s = baseScene ++ map ObjectNode (seq 0 n) ->
  List.length (objects s) = n ->
  model s = match n with O => None | S k => Some k end ->
  let n' := (n + (if terminal e then 1 else 0))%nat in
  scene (after e s) = baseScene ++ map ObjectNode (seq 0 n') /\
  List.length (objects (after e s)) = n' /\
  model (after e s) = match n' with O => None | S k => Some k end.
Proof.
  intros Hs Hl Hm. rewrite after_scene, after_objects_length, after_model, Hl.
  destruct (terminal e); simpl.
  - rewrite Nat.add_1_r, seq_S, map_app, Hs, <- app_assoc. simpl.
    repeat split.
  - rewrite Nat.add_0_r, app_nil_r. repeat split; assumption.
Qed.

Lemma scene_afterAll (es : list Event) :
  forall s n,
    scene s = baseScene ++ map ObjectNode (seq 0 n) ->
    List.length (objects s) = n ->
    model s = match n with O => None | S k => Some k end ->
    let n' := (n + outcomes es)%nat in
    scene (afterAll es s) = baseScene ++ map ObjectNode (seq 0 n') /\
    List.length (objects (afterAll es s)) = n' /\
    model (afterAll es s) = match n' with O => None | S k => Some k end.
Proof.
  induction es as [|e es IH]; intros s n Hs Hl Hm.
  - simpl. unfold outcomes. simpl. rewrite Nat.add_0_r. repeat split; assumption.
  - destruct (scene_after e s n Hs Hl Hm) as (A & B & C).
    destruct (IH (after e s) _ A B C) as (A' & B' & C').
    assert (E : (n + (if terminal e then 1 else 0) + outcomes es
                 = n + outcomes (e :: es))%nat).
    { unfold outcomes. simpl. destruct (terminal e); simpl; lia. }
    simpl afterAll. cbv zeta. rewrite <- E. repeat split; assumption.
Qed.

(** X6.  Every terminal outcome of the loader adds one object and nothing
    ever removes one: at any moment the store holds as many objects as there
    were terminal outcomes, the scene is the camera and the four lights
    followed by one node per stored object, in order, so a render draws
    exactly the stored objects; and [model] is [null] before the first
    outcome and refers to the newest object after it. *)
Theorem scene_holds_every_object_once :
  forall (w : Window) (d : Document) (now : Z) (es : list Event),
  exists s,
    page w d now es = Ok s /\
    List.length (objects s) = outcomes es /\
    scene s = baseScene ++ map ObjectNode (seq 0 (outcomes es)) /\
    sceneObjects (objects s) (scene s) = objects s /\
    model s = match outcomes es with O => None | S k => Some k end.
Proof.
  intros w d now es.
  destruct (page_afterAll w d now es) as (s0 & H0 & HI0 & Hm0 & _ & H).
  exists (afterAll es s0). split; [exact H|].
  assert (Hs0 : scene s0 = baseScene ++ map ObjectNode (seq 0 0)
                /\ List.length (objects s0) = 0%nat).
  { rewrite main_result in H0. injection H0 as <-. split; reflexivity. }
  destruct Hs0 as [Hs0 Hl0].
  destruct (scene_afterAll es s0 0%nat Hs0 Hl0 Hm0) as (A & B & C).
  simpl in A, B, C.
  split; [exact B|]. split; [exact A|]. split; [|exact C].
  rewrite A. change (sceneObjects (objects (afterAll es s0))
                       (map ObjectNode (seq 0 (outcomes es)))
                     = objects (afterAll es s0)).
  rewrite <- B. apply (sceneObjects_seq (objects (afterAll es s0)) []).
Qed.

Lemma after_object_stable (e : Event) (s : State) (k : ObjId) (o : Object3D) :
  nth_error (objects s) k = Some o ->
  exists o',
    nth_error (objects (after e s)) k = Some o' /\ sameButY o o' /\
    (o' = o \/ - 0.1 <= Vector3.y (position o') <= 0.1).
Proof.
  intros Ho.
  assert (Hk : (k < List.length (objects s))%nat).
  { apply nth_error_Some. rewrite Ho. discriminate. }
  assert (Same : forall os, nth_error os k = Some o ->
            exists o', nth_error os k = Some o' /\ sameButY o o' /\
                       (o' = o \/ - 0.1 <= Vector3.y (position o') <= 0.1)).
  { intros os H. exists o. split; [exact H|]. split; [apply sameButY_refl | left; reflexivity]. }
  rewrite after_objects.
  destruct e as [g|l t|err|w'|now|card cx cy rect]; try (apply Same, Ho).
  - apply Same. rewrite nth_error_app1 by exact Hk. exact Ho.
  - apply Same. rewrite nth_error_app1 by exact Hk. exact Ho.
  - unfold floatModel.
    destruct (model s) as [id|]; [|apply Same, Ho].
    destruct (nth_error (objects s) id) as [o0|] eqn:E0; [|apply Same, Ho].
    simpl. destruct (Nat.eq_dec k id) as [->|Hne].
    + rewrite Ho in E0. injection E0 as <-.
      exists (floated now o). split; [apply nth_error_replace_same, Hk|].
      split; [repeat split|]. right. simpl. apply floatOffset_bounds.
    + apply Same. rewrite nth_error_replace_other by exact Hne. exact Ho.
Qed.

Lemma afterAll_object_stable (es : list Event) :
  forall (s : State) (k : ObjId) (o : Object3D),
    nth_error (objects s) k = Some o ->
    exists o',
      nth_error (objects (afterAll es s)) k = Some o' /\ sameButY o o' /\
      (o' = o \/ - 0.1 <= Vector3.y (position o') <= 0.1).
Proof.
  induction es as [|e es IH]; intros s k o Ho.
  - exists o. split; [exact Ho|]. split; [apply sameButY_refl | left; reflexivity].
  - destruct (after_object_stable e s k o Ho) as (o1 & H1 & S1 & B1).
    destruct (IH (after e s) k o1 H1) as (o2 & H2 & S2 & B2).
    exists o2. split; [exact H2|]. split; [exact (sameButY_trans _ _ _ S1 S2)|].
    destruct B2 as [->|B2]; [exact B1 | right; exact B2].
Qed.

(** X7.  Once an object is in the store its reference stays good and the
    script's callbacks leave it in place: whatever happens later, the same
    reference leads to an object with the same material and the same [x]
    and [z] position; its [y] is either what it was or a float offset within
    [-0.1, 0.1].  (Its rotation is what the tweens make of it, which is not
    said here.) *)
Theorem stored_objects_stay_in_place :
  forall (w : Window) (d : Document) (now : Z) (es later : list Event),
  exists s s',
    page w d now es = Ok s /\
    page w d now (es ++ later) = Ok s' /\
    (List.length (objects s) <= List.length (objects s'))%nat /\
    forall (k : ObjId) (o : Object3D),
      nth_error (objects s) k = Some o ->
      exists o',
        nth_error (objects s') k = Some o' /\
        material o' = material o /\
        Vector3.x (position o') = Vector3.x (position o) /\
        Vector3.z (position o') = Vector3.z (position o) /\
        (Vector3.y (position o') = Vector3.y (position o) \/
         - 0.1 <= Vector3.y (position o') <= 0.1).
Proof.
  intros w d now es later.
  destruct (page_afterAll w d now es) as (s0 & H0 & HI0 & _ & _ & H).
  destruct (page_afterAll w d now (es ++ later)) as (s0' & H0' & _ & _ & _ & H').
  assert (s0' = s0) by congruence. subst s0'.
  exists (afterAll es s0), (afterAll (es ++ later) s0).
  split; [exact H|]. split; [exact H'|].
  rewrite afterAll_app. split.
  - clear H H'. generalize (afterAll es s0) as x.
    induction later as [|e later IH]; intros x; simpl; [lia|].
    specialize (IH (after e x)). rewrite after_objects_length in IH. lia.
  - intros k o Ho.
    destruct (afterAll_object_stable later _ k o Ho)
      as (o' & A & (S1 & S2 & S3 & S4 & S5) & B).
    exists o'. split; [exact A|]. split; [exact S3|].
    split; [exact S4|]. split; [exact S5|].
    destruct B as [->|B]; [left; reflexivity | right; exact B].
Qed.

(** ** Tweens over a page lifetime *)




Lemma idle_after (e : Event) (s : State) :
  List.length (filter isIdleRotation (animations (after e s))) =
  (List.length (filter isIdleRotation (animations s))
   + (if isLoaded e then 1 else 0))%nat.
Proof.
  rewrite after_animations, filter_app, length_app.
  destruct e as [g|l t|err|w'|now|card cx cy rect]; simpl; try lia.
  destruct (frameCallbacks s) as [|[] [|[] [|? ?]]]; simpl; try lia.
  destruct (model s); simpl; lia.
Qed.

Lemma idle_afterAll (es : list Event) :
  forall s,
    List.length (filter isIdleRotation (animations (afterAll es s))) =
    (List.length (filter isIdleRotation (animations s))
     + List.length (filter isLoaded es))%nat.
Proof.
  induction es as [|e es IH]; intros s; simpl; [lia|].
  rewrite IH, idle_after. destruct (isLoaded e); simpl; lia.
Qed.

Lemma idle_targets_after (e : Event) (s : State) :
  (forall tw, In tw (animations s) -> isIdleRotation tw = true ->
     exists id, tw = idleRotation id /\ (id < List.length (objects s))%nat) ->
  forall tw, In tw (animations (after e s)) -> isIdleRotation tw = true ->
    exists id, tw = idleRotation id /\ (id < List.length (objects (after e s)))%nat.
Proof.
  intros Hs tw Hin Hi. rewrite after_objects_length.
  rewrite after_animations in Hin. apply in_app_or in Hin as [Hin|Hin].
  - destruct (Hs tw Hin Hi) as (id & E & Hlt). exists id. split; [exact E | lia].
  - destruct e as [g|l t|err|w'|now|card cx cy rect]; simpl in Hin; try contradiction.
    + destruct Hin as [<-|[]]. exists (List.length (objects s)). split; [reflexivity|].
      simpl. lia.
    + destruct (frameCallbacks s) as [|[] [|[] [|? ?]]]; simpl in Hin; try contradiction.
      destruct (model s); simpl in Hin; [|contradiction].
      destruct Hin as [<-|[]]. discriminate Hi.
Qed.

Lemma idle_targets_afterAll (es : list Event) :
  forall s,
    (forall tw, In tw (animations s) -> isIdleRotation tw = true ->
       exists id, tw = idleRotation id /\ (id < List.length (objects s))%nat) ->
    forall tw, In tw (animations (afterAll es s)) -> isIdleRotation tw = true ->
      exists id, tw = idleRotation id /\
                 (id < List.length (objects (afterAll es s)))%nat.
Proof.
  induction es as [|e es IH]; intros s Hs; [exact Hs|].
  simpl. apply IH, idle_targets_after, Hs.
Qed.

(** X9.  The idle rotation belongs to the success path only: at any moment
    there are exactly as many idle rotations (tweens on an object's rotation
    without a scroll trigger) as there were successful loads, each the
    endless turn about [y] of an object in the store; a failure starts none,
    so the fallback mesh never turns on its own. *)
Theorem idle_rotation_once_per_loaded_asset :
  forall (w : Window) (d : Document) (now : Z) (es : list Event),
  exists s,
    page w d now es = Ok s /\
    List.length (filter isIdleRotation (animations s))
      = List.length (filter isLoaded es) /\
    (forall tw, In tw (animations s) -> isIdleRotation tw = true ->
       exists id, tw = idleRotation id /\ (id < List.length (objects s))%nat).
Proof.
  intros w d now es.
  destruct (page_afterAll w d now es) as (s0 & H0 & HI0 & _ & _ & H).
  exists (afterAll es s0). split; [exact H|].
  assert (Ha0 : animations s0 = [heroInfoIn]).
  { rewrite main_result in H0. injection H0 as <-. reflexivity. }
  split.
  - rewrite idle_afterAll, Ha0. reflexivity.
  - apply idle_targets_afterAll. rewrite Ha0.
    intros tw [<-|[]] Hi. discriminate Hi.
Qed.

Lemma quiet_after_rotation (e : Event) (s : State) (id : ObjId) :
  terminal e = false -> model s = Some id ->
  (forall tw, In tw (animations s) -> isScrollRotation tw = true ->
     tw = scrollRotation id) ->
  model (after e s) = Some id /\
  (forall tw, In tw (animations (after e s)) -> isScrollRotation tw = true ->
     tw = scrollRotation id).
Proof.
  intros He Hm Hs. split; [rewrite after_model, He; exact Hm|].
  intros tw Hin Hi. rewrite after_animations in Hin.
  apply in_app_or in Hin as [Hin|Hin]; [exact (Hs tw Hin Hi)|].
  destruct e as [g|l t|err|w'|now|card cx cy rect]; simpl in Hin;
    try contradiction; try discriminate He.
  destruct (frameCallbacks s) as [|[] [|[] [|? ?]]]; simpl in Hin; try contradiction.
  rewrite Hm in Hin. destruct Hin as [<-|[]]. reflexivity.
Qed.

Lemma quiet_afterAll_rotation (es : list Event) :
  forall (s : State) (id : ObjId),
    quiet es = true -> model s = Some id ->
    (forall tw, In tw (animations s) -> isScrollRotation tw = true ->
       tw = scrollRotation id) ->
    model (afterAll es s) = Some id /\
    (forall tw, In tw (animations (afterAll es s)) -> isScrollRotation tw = true ->
       tw = scrollRotation id).
Proof.
  induction es as [|e es IH]; intros s id Hq Hm Hs; [split; assumption|].
  simpl in Hq. apply andb_prop in Hq as [Hq1 Hq2].
  assert (He : terminal e = false) by (destruct (terminal e); [discriminate | reflexivity]).
  destruct (quiet_after_rotation e s id He Hm Hs) as [Hm' Hs'].
  simpl. apply IH; assumption.
Qed.

Lemma null_model_no_rotation (d : Document) (s : State) :
  Inv d s -> model s = None ->
  forall tw, In tw (animations s) -> isScrollRotation tw = true -> False.
Proof.
  intros HI Hm tw Hin Hi.
  destruct (inv_queue d s HI) as [[_ Ha]|[_ [_ Hne]]]; [|contradiction].
  unfold attached in Ha.
  assert (Hf : In tw (filter isScrollRotation (animations s))).
  { apply filter_In. split; assumption. }
  destruct (filter isScrollRotation (animations s)); [exact Hf | discriminate Ha].
Qed.

(** X10.  When the loader reports one terminal outcome in the page lifetime,
    the scroll rotation is attached to the object [model] refers to: any
    scroll rotation among the tweens is the one for that reference, and one
    frame after the outcome it is there. *)
Theorem scroll_rotation_turns_the_model :
  forall (w : Window) (d : Document) (now : Z)
         (pre : list Event) (e : Event) (post : list Event) (t : Z),
    quiet pre = true -> terminal e = true -> quiet post = true ->
    exists s s' id,
      page w d now (pre ++ [e] ++ post) = Ok s /\
      model s = Some id /\
      (forall tw, In tw (animations s) -> isScrollRotation tw = true ->
         tw = scrollRotation id) /\
      page w d now (pre ++ [e] ++ post ++ [AnimationFrame t]) = Ok s' /\
      model s' = Some id /\
      filter isScrollRotation (animations s') = [scrollRotation id].
Proof.
  intros w d now pre e post t Hpre He Hpost.
  destruct (page_afterAll w d now (pre ++ [e] ++ post)) as (s0 & H0 & HI0 & Hm0 & _ & H).
  destruct (page_afterAll w d now (pre ++ [e] ++ post ++ [AnimationFrame t]))
    as (s0' & H0' & _ & _ & _ & H').
  assert (s0' = s0) by congruence. subst s0'.
  set (s1 := afterAll pre s0).
  assert (HI1 : Inv d s1) by (apply Inv_afterAll, HI0).
  assert (Hm1 : model s1 = None).
  { destruct (Inv_run d pre s0 HI0) as (x & Hx & _ & Hq).
    rewrite (run_afterAll d pre s0 HI0) in Hx. injection Hx as Hx.
    unfold s1. rewrite Hx, (Hq Hpre). exact Hm0. }
  set (id := List.length (objects s1)).
  set (s2 := after e s1).
  assert (Hm2 : model s2 = Some id).
  { unfold s2. rewrite after_model, He. reflexivity. }
  assert (Hs2 : forall tw, In tw (animations s2) -> isScrollRotation tw = true ->
                           tw = scrollRotation id).
  { intros tw Hin Hi. unfold s2 in Hin. rewrite after_animations in Hin.
    apply in_app_or in Hin as [Hin|Hin].
    - elim (null_model_no_rotation d s1 HI1 Hm1 tw Hin Hi).
    - destruct e as [g|l t0|err|w'|now0|card cx cy rect]; try discriminate He;
        simpl in Hin; try contradiction.
      destruct Hin as [<-|[]]. discriminate Hi. }
  destruct (quiet_afterAll_rotation post s2 id Hpost Hm2 Hs2) as [Hm3 Hs3].
  assert (E3 : afterAll (pre ++ [e] ++ post) s0 = afterAll post s2).
  { rewrite afterAll_app. change ([e] ++ post) with (e :: post). reflexivity. }
  assert (E4 : afterAll (pre ++ [e] ++ post ++ [AnimationFrame t]) s0
               = after (AnimationFrame t) (afterAll post s2)).
  { rewrite afterAll_app. change ([e] ++ post ++ [AnimationFrame t])
      with (e :: (post ++ [AnimationFrame t])).
    simpl afterAll. rewrite afterAll_app. reflexivity. }
  rewrite E3 in H. rewrite E4 in H'.
  set (s3 := afterAll post s2) in *.
  assert (HI3 : Inv d s3).
  { unfold s3, s2. apply Inv_afterAll, Inv_after, HI1. }
  exists s3, (after (AnimationFrame t) s3), id.
  split; [exact H|]. split; [exact Hm3|]. split; [exact Hs3|].
  split; [exact H'|].
  split; [rewrite after_model; exact Hm3|].
  assert (HI4 : Inv d (after (AnimationFrame t) s3)) by (apply Inv_after, HI3).
  assert (Ha4 : attached (after (AnimationFrame t) s3) = 1%nat).
  { unfold attached. rewrite after_animations, filter_app, length_app.
    fold (attached s3). rewrite Hm3.
    destruct (inv_queue d s3 HI3) as [[Hc Ha]|[Hc [Ha _]]]; rewrite Hc, Ha;
      reflexivity. }
  unfold attached in Ha4.
  destruct (filter isScrollRotation (animations (after (AnimationFrame t) s3)))
    as [|tw [|tw' rest]] eqn:Ef; try discriminate Ha4.
  f_equal.
  assert (Hin : In tw (filter isScrollRotation (animations (after (AnimationFrame t) s3)))).
  { rewrite Ef. left. reflexivity. }
  apply filter_In in Hin as [Hin Hi].
  destruct (quiet_after_rotation (AnimationFrame t) s3 id eq_refl Hm3 Hs3) as [_ Hs4].
  exact (Hs4 tw Hin Hi).
Qed.

Lemma scroll_rotation_turns_the_model_witness :
  exists s s' id,
    page desk markup 0 ([AnimationFrame 16] ++ [Failed "404"] ++ [Resized phone]) = Ok s /\
    model s = Some id /\
    (forall tw, In tw (animations s) -> isScrollRotation tw = true ->
       tw = scrollRotation id) /\
    page desk markup 0
         ([AnimationFrame 16] ++ [Failed "404"] ++ [Resized phone] ++ [AnimationFrame 32])
    = Ok s' /\
    model s' = Some id /\
    filter isScrollRotation (animations s') = [scrollRotation id].
Proof.
  apply (scroll_rotation_turns_the_model desk markup 0
           [AnimationFrame 16] (Failed "404") [Resized phone] 32);
    reflexivity.
Defined.

(** ** Centring, again *)

Lemma Vector3_sub_zero (p : Vector3.t) : Vector3.sub p Vector3.zero = p.
Proof. apply Vector3_eq; simpl; lra. Qed.

Lemma withPosition_same (o : Object3D) : withPosition o (position o) = o.
Proof. destruct o; reflexivity. Qed.

Lemma centred_empty (g : Object3D) :
  vertices (geometry g) = [] -> centred g = g.
Proof.
  intros H. unfold centred, setFromObject. rewrite H. simpl.
  rewrite Vector3_sub_zero. apply withPosition_same.
Qed.

Lemma centred_centred (g : Object3D) : centred (centred g) = centred g.
Proof.
  unfold centred at 1. rewrite centred_box_centre, Vector3_sub_zero.
  apply withPosition_same.
Qed.

Lemma centred_withPosition (g : Object3D) (p : Vector3.t) :
  Box3.isEmpty (setFromObject g) = false ->
  centred (withPosition g p) = centred g.
Proof.
  intros H. unfold centred.
  rewrite (setFromObject_shifted (withPosition g p)).
  rewrite (setFromObject_shifted g) in *. simpl in *.
  destruct (Box3.setFromPoints (vertices (geometry g))) as [[lo hi]|];
    [|discriminate H].
  unfold withPosition; simpl. f_equal. apply Vector3_eq; simpl; lra.
Qed.

(** X11.  An asset without vertices has an empty bounding box, whose centre
    three.js gives as the origin: the success callback then stores the asset
    exactly as the loader delivered it, position included. *)
Theorem empty_asset_stays_where_it_is :
  forall (g : Object3D) (s : State),
    vertices (geometry g) = [] ->
    exists s',
      dispatch (Loaded g) s = Ok s' /\
      Box3.isEmpty (setFromObject g) = true /\
      modelObject s' = Some g.
Proof.
  intros g s H. eexists. split; [apply onLoad_result|].
  split; [unfold setFromObject; rewrite H; reflexivity|].
  unfold modelObject; simpl. rewrite nth_error_snoc, (centred_empty g H). reflexivity.
Qed.

Lemma empty_asset_stays_where_it_is_witness :
  exists s',
    dispatch (Loaded emptyGroup) (setup desk markup) = Ok s' /\
    Box3.isEmpty (setFromObject emptyGroup) = true /\
    modelObject s' = Some emptyGroup.
Proof.
  apply (empty_asset_stays_where_it_is emptyGroup (setup desk markup)).
  reflexivity.
Defined.

(** X12.  Where an asset with vertices ends up does not depend on where the
    loader delivered it: the same asset delivered at any other position is
    stored as the same object.  And centring is idempotent: an asset the
    callback has already centred is stored unchanged when loaded again. *)
Theorem centring_forgets_the_delivered_position :
  forall (g : Object3D) (p : Vector3.t) (s : State),
    Box3.isEmpty (setFromObject g) = false ->
    exists s1 s2 s3 o,
      dispatch (Loaded g) s = Ok s1 /\
      dispatch (Loaded (withPosition g p)) s = Ok s2 /\
      modelObject s1 = Some o /\
      modelObject s2 = Some o /\
      dispatch (Loaded o) s = Ok s3 /\
      modelObject s3 = Some o.
Proof.
  intros g p s H.
  exists (afterLoad g s), (afterLoad (withPosition g p) s),
         (afterLoad (centred g) s), (centred g).
  split; [apply onLoad_result|]. split; [apply onLoad_result|].
  unfold modelObject; simpl. rewrite !nth_error_snoc.
  split; [reflexivity|].
  split; [rewrite (centred_withPosition g p H); reflexivity|].
  split; [apply onLoad_result|].
  rewrite centred_centred. reflexivity.
Qed.

Lemma centring_forgets_the_delivered_position_witness :
  exists s1 s2 s3 o,
    dispatch (Loaded raisedAsset) (setup desk markup) = Ok s1 /\
    dispatch (Loaded (withPosition raisedAsset (Vector3.make 5 7 (-2))))
             (setup desk markup) = Ok s2 /\
    modelObject s1 = Some o /\
    modelObject s2 = Some o /\
    dispatch (Loaded o) (setup desk markup) = Ok s3 /\
    modelObject s3 = Some o.
Proof.
  apply (centring_forgets_the_delivered_position
           raisedAsset (Vector3.make 5 7 (-2)) (setup desk markup)).
  reflexivity.
Defined.

(** ** Frames in a row *)

Lemma replace_replace (os : list Object3D) (id : ObjId) (a b : Object3D) :
  replace (replace os id a) id b = replace os id b.
Proof.
  revert id; induction os as [|x os IH]; intros [|id]; simpl; try reflexivity.
  rewrite IH. reflexivity.
Qed.

Lemma floatModel_twice (t1 t2 : Z) (s s1 : State) :
  model s1 = model s -> objects s1 = objects (floatModel t1 s) ->
  objects (floatModel t2 s1) = objects (floatModel t2 s).
Proof.
  intros Em Eo. unfold floatModel in *. rewrite Em.
  destruct (model s) as [id|]; [|exact Eo].
  destruct (nth_error (objects s) id) as [o|] eqn:E.
  - simpl in Eo. rewrite Eo.
    assert (Hlt : (id < List.length (objects s))%nat).
    { apply nth_error_Some. rewrite E. discriminate. }
    rewrite (nth_error_replace_same _ _ _ Hlt). simpl.
    rewrite replace_replace. reflexivity.
  - rewrite Eo, E. exact Eo.
Qed.

(** X13.  The float has no memory: two frames in a row leave the stored
    objects, the scene, [model], the tweens and the pending callbacks exactly
    as the second frame alone would; only one more picture has been
    rendered. *)
Theorem two_frames_leave_what_the_later_leaves :
  forall (w : Window) (d : Document) (now : Z) (es : list Event) (t1 t2 : Z),
  exists s s',
    page w d now (es ++ [AnimationFrame t1; AnimationFrame t2]) = Ok s /\
    page w d now (es ++ [AnimationFrame t2]) = Ok s' /\
    objects s = objects s' /\ scene s = scene s' /\ model s = model s' /\
    animations s = animations s' /\ frameCallbacks s = frameCallbacks s' /\
    List.length (WebGLRenderer.frames (renderer s))
      = S (List.length (WebGLRenderer.frames (renderer s'))).
Proof.
  intros w d now es t1 t2.
  destruct (page_afterAll w d now (es ++ [AnimationFrame t1; AnimationFrame t2]))
    as (s0 & H0 & HI0 & _ & _ & H).
  destruct (page_afterAll w d now (es ++ [AnimationFrame t2]))
    as (s0' & H0' & _ & _ & _ & H').
  assert (s0' = s0) by congruence. subst s0'.
  set (x := afterAll es s0).
  assert (E : afterAll (es ++ [AnimationFrame t1; AnimationFrame t2]) s0
              = after (AnimationFrame t2) (after (AnimationFrame t1) x)).
  { rewrite afterAll_app. reflexivity. }
  assert (E' : afterAll (es ++ [AnimationFrame t2]) s0 = after (AnimationFrame t2) x).
  { rewrite afterAll_app. reflexivity. }
  rewrite E in H. rewrite E' in H'.
  assert (HIx : Inv d x) by (apply Inv_afterAll, HI0).
  assert (HI1 : Inv d (after (AnimationFrame t1) x)) by (apply Inv_after, HIx).
  exists (after (AnimationFrame t2) (after (AnimationFrame t1) x)),
         (after (AnimationFrame t2) x).
  split; [exact H|]. split; [exact H'|].
  split.
  { rewrite !after_objects. apply (floatModel_twice t1 t2).
    - apply after_model.
    - apply after_objects. }
  split; [rewrite !after_scene; simpl; rewrite !app_nil_r; reflexivity|].
  split; [rewrite !after_model; reflexivity|].
  split.
  { rewrite (after_animations (AnimationFrame t2) (after (AnimationFrame t1) x)).
    rewrite after_frameCallbacks, after_model, !after_animations. simpl terminal.
    cbv iota.
    destruct (inv_queue d x HIx) as [[Hc _]|[Hc _]]; rewrite Hc;
      destruct (model x); rewrite <- ?app_assoc; reflexivity. }
  split.
  { rewrite (after_frameCallbacks (AnimationFrame t2) (after (AnimationFrame t1) x)).
    rewrite !after_frameCallbacks, after_model. simpl terminal. cbv iota.
    destruct (inv_queue d x HIx) as [[Hc _]|[Hc _]]; rewrite Hc;
      destruct (model x); reflexivity. }
  rewrite (dispatch_frames d (AnimationFrame t2) _ _ HI1 (dispatch_after d _ _ HI1)).
  rewrite (dispatch_frames d (AnimationFrame t1) _ _ HIx (dispatch_after d _ _ HIx)).
  rewrite (dispatch_frames d (AnimationFrame t2) _ _ HIx (dispatch_after d _ _ HIx)).
  simpl. lia.
Qed.

(** ** The custom properties of the cards *)

Lemma after_document (e : Event) (s : State) : document (after e s) = document s.
Proof.
  destruct e as [g|l t|err|w'|now|card cx cy rect]; try reflexivity.
  - unfold after, afterFrame.
    destruct (frameCallbacks s) as [|[] [|[] [|? ?]]]; try (frame_simpl; reflexivity).
    destruct (model s); frame_simpl; reflexivity.
  - unfold after, afterMouse.
    destruct (existsb (Nat.eqb card) (hCards (document s))); reflexivity.
Qed.

Lemma after_style (e : Event) (s : State) :
  style (after e s) =
  match e with
  | MouseMoved card clientX clientY rect =>
      style (afterMouse card clientX clientY rect s)
  | _ => style s
  end.
Proof.
  destruct e as [g|l t|err|w'|now|card cx cy rect]; try reflexivity.
  unfold after, afterFrame.
  destruct (frameCallbacks s) as [|[] [|[] [|? ?]]]; try (frame_simpl; reflexivity).
  destruct (model s); frame_simpl; reflexivity.
Qed.

Lemma published_after (d : Document) (card : nat) (e : Event)
      (acc : option (R * R)) (s : State) :
  published d card acc s ->
  published d card
    (match e with
     | MouseMoved c clientX clientY rect =>
         if Nat.eqb c card
         then Some (clientX - left rect, clientY - top rect)
         else acc
     | _ => acc
     end)
    (after e s).
Proof.
  intros (Hd & Hx & Hy & Hn). unfold published.
  rewrite after_document, after_style.
  destruct e as [g|l t|err|w'|now|c cx cy rect];
    try (split; [exact Hd|]; split; [exact Hx|]; split; [exact Hy | exact Hn]).
  split; [exact Hd|]. unfold afterMouse. rewrite Hd.
  destruct (Nat.eqb c card) eqn:Ec.
  - apply Nat.eqb_eq in Ec. subst c.
    destruct (existsb (Nat.eqb card) (hCards d)) eqn:Ecard.
    + simpl. rewrite Nat.eqb_refl. simpl.
      split; [reflexivity|]. split; [reflexivity|].
      intros name Nx Ny.
      apply String.eqb_neq in Nx. apply String.eqb_neq in Ny.
      rewrite Nx, Ny. simpl. apply Hn; apply String.eqb_neq; assumption.
    + split; [exact Hx|]. split; [exact Hy | exact Hn].
  - assert (Ec' : Nat.eqb card c = false) by (rewrite Nat.eqb_sym; exact Ec).
    destruct (existsb (Nat.eqb c) (hCards d)).
    + simpl. rewrite Ec'. simpl.
      split; [exact Hx|]. split; [exact Hy | exact Hn].
    + split; [exact Hx|]. split; [exact Hy | exact Hn].
Qed.

Lemma published_afterAll (d : Document) (card : nat) (es : list Event) :
  forall (acc : option (R * R)) (s : State),
    published d card acc s ->
    published d card
      (fold_left
         (fun acc e =>
            match e with
            | MouseMoved c clientX clientY rect =>
                if Nat.eqb c card
                then Some (clientX - left rect, clientY - top rect)
                else acc
            | _ => acc
            end) es acc)
      (afterAll es s).
Proof.
  induction es as [|e es IH]; intros acc s H; [exact H|].
  simpl. apply IH, published_after, H.
Qed.

(** X14.  The custom properties of a node are decided by the pointer moves
    alone, the last one winning: at any moment a card's [--x] and [--y] are
    the offsets of the last pointer move over that card, in pixels, and are
    unset if there was none; a node that is not a card never gets them,
    whatever pointer events name it; and no other property is ever set. *)
Theorem card_variables_follow_the_last_pointer_move :
  forall (w : Window) (d : Document) (now : Z) (es : list Event) (card : nat),
  exists s,
    page w d now es = Ok s /\
    style s card "--x" =
      (if existsb (Nat.eqb card) (hCards d)
       then option_map (fun m => px (fst m)) (lastMove card es) else None) /\
    style s card "--y" =
      (if existsb (Nat.eqb card) (hCards d)
       then option_map (fun m => px (snd m)) (lastMove card es) else None) /\
    (forall name, name <> "--x"%string -> name <> "--y"%string ->
       style s card name = None).
Proof.
  intros w d now es card.
  destruct (page_afterAll w d now es) as (s0 & H0 & HI0 & _ & _ & H).
  exists (afterAll es s0). split; [exact H|].
  assert (P0 : published d card None s0).
  { rewrite main_result in H0. injection H0 as <-. unfold published. simpl.
    destruct (existsb (Nat.eqb card) (hCards d)); repeat split. }
  destruct (published_afterAll d card es None s0 P0) as (_ & Hx & Hy & Hn).
  split; [exact Hx|]. split; [exact Hy | exact Hn].
Qed.

(** ** The media queries, again *)

(** X15.  The tweens of the horizontal section follow the viewport width and
    nothing else: two page lifetimes over the same document that end at the
    same width hold the same media tweens (so crossing the breakpoint and
    coming back restores them), and a horizontal scroll and a card reveal
    are never live together. *)
Theorem media_tweens_follow_the_width :
  forall (w : Window) (d : Document) (now : Z) (es es' : list Event),
    viewportWidth (lastWindow w es) = viewportWidth (lastWindow w es') ->
    exists s s',
      page w d now es = Ok s /\
      page w d now es' = Ok s' /\
      mediaTweens s = mediaTweens s' /\
      (forall wr sec card,
         In (horizontalScroll wr sec) (mediaTweens s) ->
         In (cardReveal card) (mediaTweens s) -> False).
Proof.
  intros w d now es es' Hw.
  destruct (page_mediaTweens w d now es) as (s & H & Hm).
  destruct (page_mediaTweens w d now es') as (s' & H' & Hm').
  exists s, s'. split; [exact H|]. split; [exact H'|].
  split; [rewrite Hm, Hm', Hw; reflexivity|].
  intros wr sec card Hh Hc. rewrite Hm in Hh, Hc.
  set (vw := viewportWidth (lastWindow w es)) in *.
  destruct (Gsap.matches (Gsap.MinWidth 1024) vw) eqn:E1;
    destruct (Gsap.matches (Gsap.MaxWidth 1023) vw) eqn:E2.
  - apply matches_MinWidth in E1. apply matches_MaxWidth in E2. lra.
  - rewrite app_nil_r in Hc. unfold desktop in Hc.
    destruct (wrapper d), (horizontalSection d); simpl in Hc; try contradiction.
    destruct Hc as [C|[]]. discriminate C.
  - rewrite app_nil_l in Hh. unfold mobile in Hh.
    apply in_map_iff in Hh as (c & C & _). discriminate C.
  - exact Hh.
Qed.

Lemma media_tweens_follow_the_width_witness :
  exists s s',
    page desk markup 0 [Resized phone; AnimationFrame 16; Resized desk] = Ok s /\
    page desk markup 0 [] = Ok s' /\
    mediaTweens s = mediaTweens s' /\
    (forall wr sec card,
       In (horizontalScroll wr sec) (mediaTweens s) ->
       In (cardReveal card) (mediaTweens s) -> False).
Proof.
  apply (media_tweens_follow_the_width desk markup 0
           [Resized phone; AnimationFrame 16; Resized desk] []).
  reflexivity.
Defined.

(** ** The console *)

Lemma after_console (e : Event) (s : State) :
  console (after e s) = console s ++ logged e.
Proof.
  destruct e as [g|l t|err|w'|now|card cx cy rect];
    try (simpl; rewrite ?app_nil_r; reflexivity).
  - unfold after, afterFrame. simpl logged. rewrite app_nil_r.
    destruct (frameCallbacks s) as [|[] [|[] [|? ?]]]; try (frame_simpl; reflexivity).
    destruct (model s); frame_simpl; reflexivity.
  - unfold after, afterMouse. simpl logged. rewrite app_nil_r.
    destruct (existsb (Nat.eqb card) (hCards (document s))); reflexivity.
Qed.

Lemma afterAll_console (es : list Event) :
  forall s, console (afterAll es s) = console s ++ flat_map logged es.
Proof.
  induction es as [|e es IH]; intros s; simpl.
  - rewrite app_nil_r. reflexivity.
  - rewrite IH, after_console, <- app_assoc. reflexivity.
Qed.

(** X16.  The console holds one entry per progress report (the percentage
    loaded) and one per failure (the error), in the order they happened, and
    nothing else: the script logs nothing on its own, and success, resizes,
    frames and pointer moves are silent. *)
Theorem console_records_progress_and_failures :
  forall (w : Window) (d : Document) (now : Z) (es : list Event),
  exists s,
    page w d now es = Ok s /\
    console s = flat_map logged es.
Proof.
  intros w d now es.
  destruct (page_afterAll w d now es) as (s0 & H0 & HI0 & _ & _ & H).
  exists (afterAll es s0). split; [exact H|].
  rewrite afterAll_console.
  rewrite main_result in H0. injection H0 as <-. reflexivity.
Qed.

(** ** The scenarios of the specification, run *)

(** Running the page on given events: everything is computed but the
    arithmetic of real numbers. *)
Ltac run_page :=
  cbv - [Rplus Rminus Rmult Rdiv Rinv Ropp IZR sin PI tan sqrt Rmin Rmax Rle_dec].

Example waiting_while_model_is_null :
  exists s,
    page desk markup 0 [AnimationFrame 16; Progress 1 2; AnimationFrame 32] = Ok s /\
    model s = None /\ pending s = 1%nat /\ attached s = 0%nat /\
    frameCallbacks s = [Animate; RotateModel] /\
    List.length (WebGLRenderer.frames (renderer s)) = 3%nat.
Proof. eexists. split; [run_page; reflexivity|]. run_page. repeat split. Qed.

Example attached_one_frame_after_load :
  exists s,
    page desk markup 0 [AnimationFrame 16; Loaded raisedAsset; AnimationFrame 32;
                        AnimationFrame 48] = Ok s /\
    model s = Some 0%nat /\ pending s = 0%nat /\ attached s = 1%nat /\
    frameCallbacks s = [Animate] /\
    animations s = [heroInfoIn; idleRotation 0%nat; scrollRotation 0%nat].
Proof. eexists. split; [run_page; reflexivity|]. run_page. repeat split. Qed.

Example attached_one_frame_after_failure :
  exists s,
    page desk markup 0 [Failed "404"; AnimationFrame 16] = Ok s /\
    model s = Some 0%nat /\ attached s = 1%nat /\
    animations s = [heroInfoIn; scrollRotation 0%nat] /\
    scene s = [CameraNode; LightNode ambientLight; LightNode blueSpotLight;
               LightNode fillLight; LightNode rimLight; ObjectNode 0%nat].
Proof. eexists. split; [run_page; reflexivity|]. run_page. repeat split. Qed.

Example desktop_at_1200 :
  exists s, page desk markup 0 [] = Ok s /\ mediaTweens s = [horizontalScroll 1 0].
Proof.
  destruct (page_mediaTweens desk markup 0 []) as (s & H & Hm).
  exists s. split; [exact H|]. rewrite Hm. simpl.
  destruct (Rle_dec 1024 1200), (Rle_dec 1200 1023); try lra. reflexivity.
Qed.

Example mobile_at_800 :
  exists s, page phone markup 0 [] = Ok s /\ mediaTweens s = [cardReveal 2; cardReveal 3].
Proof.
  destruct (page_mediaTweens phone markup 0 []) as (s & H & Hm).
  exists s. split; [exact H|]. rewrite Hm. simpl.
  destruct (Rle_dec 1024 800), (Rle_dec 800 1023); try lra. reflexivity.
Qed.

Example pixel_ratio_capped_on_phone :
  exists s, page desk markup 0 [Resized phone] = Ok s /\
            WebGLRenderer.pixelRatio (renderer s) = 2 /\
            PerspectiveCamera.aspect (camera s) = 4 / 3.
Proof.
  eexists. split; [run_page; reflexivity|]. run_page. split.
  - unfold Rmin. destruct (Rle_dec 3 2); lra.
  - lra.
Qed.
